(** * StockDataTask: the CSV validate-and-store pipeline

    A shallow embedding of [validateCSVAndStoreCSV] (router.js) together with
    the JavaScript and moment.js primitives it calls, followed by the
    properties of the pipeline.

    Conventions of the embedding.
    - A JavaScript string is a [string]: a sequence of code units, the model
      covering the code units below 256.
    - A value read from a parsed row ([row[field]]) is an [option string]:
      [None] is [undefined].
    - The counters are JavaScript numbers holding integers; they are modelled
      in [Z] (exact below 2^53).
    - [parseFloat] and [parseInt] return the exact decimal value of the
      literal they read ([Number]); the rounding to a double is not modelled,
      which never changes whether the result is [NaN].
    - The parser stream delivers its events (['headers'], ['data'], ['end'],
      ['error']) to the handlers the function registers. A handler runs to
      completion, the ['data'] handler up to its [await]; nothing waits for
      the promise the ['data'] handler returns. The continuation that follows
      [await stockData.save()] is an event of its own, delivered when the
      save settles, in any order with respect to the later events of the
      stream.
    - A run is the list of events handled so far; the outcome of the function
      is the state of the promise it returned. *)

From stdpp Require Import gmap strings list pretty.
From Stdlib Require Import ZArith Ascii String Lia.

Open Scope Z_scope.
Open Scope string_scope.

(** ** JavaScript primitives *)

Module JS.

(** [undefined] or a string. *)
Definition value := option string.

(** [ToString] on the values a row can hold. *)
Definition ToString (v : value) : string :=
  match v with
  | Some s => s
  | None => "undefined"
  end.

(** WhiteSpace and LineTerminator code units below 256:
    TAB, LF, VT, FF, CR, SP, NBSP. *)
Definition isWhiteSpace (c : ascii) : bool :=
  let n := N_of_ascii c in
  ((9 <=? n) && (n <=? 13) || (n =? 32) || (n =? 160))%N.

Fixpoint trimStart (s : string) : string :=
  match s with
  | String c rest => if isWhiteSpace c then trimStart rest else s
  | EmptyString => EmptyString
  end.

Definition trimEnd (s : string) : string :=
  String.rev (trimStart (String.rev s)).

(** [String.prototype.trim]. *)
Definition trim (s : string) : string := trimEnd (trimStart s).

(** The exact value read by [parseFloat] / [parseInt]:
    [Decimal neg m e] stands for (-1)^neg * m * 10^e. *)
Inductive Number :=
| NaN
| Infinity (neg : bool)
| Decimal (neg : bool) (mantissa : N) (exponent : Z).

Definition isNaN (x : Number) : bool :=
  match x with NaN => true | _ => false end.

Definition isFinite (x : Number) : bool :=
  match x with Decimal _ _ _ => true | _ => false end.

(** An integer value: no fractional digit is left once the exponent is
    applied. *)
Definition isInteger (x : Number) : bool :=
  match x with
  | Decimal _ m e =>
      if (0 <=? e)%Z then true
      else (N.modulo m (10 ^ Z.to_N (- e)) =? 0)%N
  | _ => false
  end.

Definition digitValue (c : ascii) : option N :=
  let n := N_of_ascii c in
  if ((48 <=? n) && (n <=? 57))%N then Some (n - 48)%N else None.

Definition isDigit (c : ascii) : bool :=
  match digitValue c with Some _ => true | None => false end.

(** The longest run of decimal digits at the head of [s], and the rest. *)
Fixpoint takeDigits (s : string) : list N * string :=
  match s with
  | String c rest =>
      match digitValue c with
      | Some d => let '(ds, r) := takeDigits rest in (d :: ds, r)
      | None => ([], s)
      end
  | EmptyString => ([], EmptyString)
  end.

Definition digitsToN (base : N) (ds : list N) : N :=
  fold_left (fun acc d => (acc * base + d)%N) ds 0%N.

(** An optional sign at the head of [s]. *)
Definition takeSign (s : string) : bool * string :=
  match s with
  | String c rest =>
      if Ascii.eqb c "-" then (true, rest)
      else if Ascii.eqb c "+" then (false, rest)
      else (false, s)
  | EmptyString => (false, s)
  end.

Fixpoint isPrefix (p s : string) : bool :=
  match p, s with
  | EmptyString, _ => true
  | String a p', String b s' => if Ascii.eqb a b then isPrefix p' s' else false
  | String _ _, EmptyString => false
  end.

(** The ExponentPart of a StrDecimalLiteral, when one is well formed at the
    head of [s]; otherwise nothing is consumed and the exponent is 0. *)
Definition takeExponent (s : string) : Z :=
  match s with
  | String c rest =>
      if (Ascii.eqb c "e" || Ascii.eqb c "E")%bool then
        let '(neg, r) := takeSign rest in
        match takeDigits r with
        | ([], _) => 0
        | (ds, _) =>
            let e := Z.of_N (digitsToN 10 ds) in
            if neg then - e else e
        end
      else 0
  | EmptyString => 0
  end.

(** [parseFloat(v)]: leading white space is skipped, then the longest
    prefix that is a StrDecimalLiteral is read; [NaN] when there is none. *)
Definition parseFloat (v : value) : Number :=
  let s := trimStart (ToString v) in
  let '(neg, s1) := takeSign s in
  if isPrefix "Infinity" s1 then Infinity neg
  else
    let '(ip, s2) := takeDigits s1 in
    let '(fp, s3) :=
      match s2 with
      | String c rest => if Ascii.eqb c "." then takeDigits rest else ([], s2)
      | EmptyString => ([], s2)
      end in
    match ip, fp with
    | [], [] => NaN
    | _, _ =>
        Decimal neg (digitsToN 10 (ip ++ fp))
                (takeExponent s3 - Z.of_nat (List.length fp))
    end.

Definition hexValue (c : ascii) : option N :=
  let n := N_of_ascii c in
  if ((48 <=? n) && (n <=? 57))%N then Some (n - 48)%N
  else if ((97 <=? n) && (n <=? 102))%N then Some (n - 87)%N
  else if ((65 <=? n) && (n <=? 70))%N then Some (n - 55)%N
  else None.

Fixpoint takeHexDigits (s : string) : list N * string :=
  match s with
  | String c rest =>
      match hexValue c with
      | Some d => let '(ds, r) := takeHexDigits rest in (d :: ds, r)
      | None => ([], s)
      end
  | EmptyString => ([], EmptyString)
  end.

(** [parseInt(v)] with no radix argument: radix 16 after a [0x] / [0X]
    prefix, radix 10 otherwise; [NaN] when no digit follows. *)
Definition parseInt (v : value) : Number :=
  let s := trimStart (ToString v) in
  let '(neg, s1) := takeSign s in
  let '(base, ds) :=
    match s1 with
    | String c0 (String c rest) =>
        if (Ascii.eqb c0 "0" && (Ascii.eqb c "x" || Ascii.eqb c "X"))%bool
        then (16%N, fst (takeHexDigits rest))
        else (10%N, fst (takeDigits s1))
    | _ => (10%N, fst (takeDigits s1))
    end in
  match ds with
  | [] => NaN
  | _ => Decimal neg (digitsToN base ds) 0
  end.

(** A counter interpolated in a template literal. *)
Definition NumberToString (n : Z) : string := pretty n.

(** [Array.prototype.join] on an array of strings. *)
Definition join (sep : string) (l : list string) : string :=
  String.concat sep l.

(** A [Set] of strings is kept as the list of its elements in insertion
    order. *)
Definition Set_has (s : list string) (x : string) : bool :=
  bool_decide (x ∈ s).

Definition Set_add (s : list string) (x : string) : list string :=
  if Set_has s x then s else (s ++ [x])%list.

(** [Array.from(set)]. *)
Definition Array_from (s : list string) : list string := s.

End JS.

(** ** moment.js: strict parsing and formatting of calendar dates

    Only what the pipeline calls is embedded: the format tokens [YYYY], [MM]
    and [DD] with literal separators, strict mode, and the [format] of a
    parsed date. In strict mode moment requires every token to match
    ([unusedTokens] empty) and every input character to be consumed by a
    token ([charsLeftOver = 0]), so each token has to match where the
    previous one stopped; the strict patterns of [YYYY], [MM] and [DD] are
    exactly four, two and two decimal digits. *)

Module Moment.

Inductive Token := YYYY | MM | DD | Lit (c : ascii).

(** The tokens of a format string (moment's [formattingTokens] on the
    formats the pipeline uses). *)
Fixpoint tokenize (fmt : string) : list Token :=
  match fmt with
  | String "Y" (String "Y" (String "Y" (String "Y" rest))) =>
      YYYY :: tokenize rest
  | String "M" (String "M" rest) => MM :: tokenize rest
  | String "D" (String "D" rest) => DD :: tokenize rest
  | String c rest => Lit c :: tokenize rest
  | EmptyString => []
  end.

(** The parsed fields ([config._a]): [MONTH] is zero-based. *)
Record DateArray := { YEAR : Z; MONTH : Z; DATE : Z }.

(** Exactly [n] decimal digits at the head of [s]. *)
Fixpoint readDigits (n : nat) (s : string) (acc : Z) : option (Z * string) :=
  match n with
  | O => Some (acc, s)
  | S n' =>
      match s with
      | String c rest =>
          match JS.digitValue c with
          | Some d => readDigits n' rest (acc * 10 + Z.of_N d)
          | None => None
          end
      | EmptyString => None
      end
  end.

(** [configFromStringAndFormat] in strict mode: the fields set by the
    tokens, or [None] when a token does not match or input is left over.
    Fields no token sets stay [None]. *)
Fixpoint parseTokens (toks : list Token) (s : string)
    (y m d : option Z) : option (option Z * option Z * option Z) :=
  match toks with
  | [] => match s with EmptyString => Some (y, m, d) | _ => None end
  | YYYY :: ts =>
      match readDigits 4 s 0 with
      | Some (v, r) => parseTokens ts r (Some v) m d
      | None => None
      end
  | MM :: ts =>
      match readDigits 2 s 0 with
      | Some (v, r) => parseTokens ts r y (Some (v - 1)) d
      | None => None
      end
  | DD :: ts =>
      match readDigits 2 s 0 with
      | Some (v, r) => parseTokens ts r y m (Some v)
      | None => None
      end
  | Lit c :: ts =>
      match s with
      | String c' r => if Ascii.eqb c c' then parseTokens ts r y m d else None
      | EmptyString => None
      end
  end.

Definition isLeapYear (year : Z) : bool :=
  ((year mod 4 =? 0) && negb (year mod 100 =? 0) || (year mod 400 =? 0))%Z.

(** [daysInMonth(year, month)] for a month in 0..11. *)
Definition daysInMonth (year month : Z) : Z :=
  if (month =? 1)%Z then (if isLeapYear year then 29 else 28)
  else 31 - (month mod 7) mod 2.

(** [checkOverflow]: the month and the day of the month are in range. *)
Definition noOverflow (a : DateArray) : bool :=
  ((0 <=? MONTH a) && (MONTH a <=? 11) &&
   (1 <=? DATE a) && (DATE a <=? daysInMonth (YEAR a) (MONTH a)))%Z.

(** A moment object: [None] is an invalid moment. *)
Definition t := option DateArray.

(** [moment(input, format, true)]. Every format of the pipeline sets the
    three fields; a field left unset would be taken from the current date,
    which is outside the embedding, and is reported invalid here. *)
Definition moment (input : JS.value) (format : string) : t :=
  match parseTokens (tokenize format) (JS.ToString input) None None None with
  | Some (Some y, Some m, Some d) =>
      let a := {| YEAR := y; MONTH := m; DATE := d |} in
      if noOverflow a then Some a else None
  | _ => None
  end.

Definition isValid (m : t) : bool :=
  match m with Some _ => true | None => false end.

(** [moment(input, formats, true)] with an array of formats: in strict mode
    a valid parse has score 0, which no later format beats, so the first
    format that gives a valid moment is the one kept. *)
Fixpoint momentFormats (input : JS.value) (formats : list string) : t :=
  match formats with
  | [] => None
  | f :: fs =>
      match moment input f with
      | Some a => Some a
      | None => momentFormats input fs
      end
  end.

Fixpoint zeros (n : nat) : string :=
  match n with
  | O => EmptyString
  | S n' => String "0" (zeros n')
  end.

(** [zeroFill(number, targetLength)]. *)
Definition zeroFill (number : Z) (targetLength : nat) : string :=
  let absNumber := pretty (Z.abs number) in
  let zerosToFill := (targetLength - String.length absNumber)%nat in
  (if (0 <=? number)%Z then "" else "-") +:+ zeros zerosToFill +:+ absNumber.

Fixpoint formatTokens (toks : list Token) (a : DateArray) : string :=
  match toks with
  | [] => EmptyString
  | YYYY :: ts => zeroFill (YEAR a) 4 +:+ formatTokens ts a
  | MM :: ts => zeroFill (MONTH a + 1) 2 +:+ formatTokens ts a
  | DD :: ts => zeroFill (DATE a) 2 +:+ formatTokens ts a
  | Lit c :: ts => String c (formatTokens ts a)
  end.

(** [m.format(fmt)]. *)
Definition format (m : t) (fmt : string) : string :=
  match m with
  | Some a => formatTokens (tokenize fmt) a
  | None => "Invalid date"
  end.

End Moment.

(** ** The document handed to the persistence sink (model.js) *)

Module Stock.

(** The fields of [StockSchema], with the values the pipeline passes to
    [new Stock({...})]. *)
Record t := mk {
  date : string;
  symbol : JS.value;
  series : JS.value;
  prev_close : JS.Number;
  open : JS.Number;
  high : JS.Number;
  low : JS.Number;
  last : JS.Number;
  close : JS.Number;
  vwap : JS.Number;
  volume : JS.Number;
  turnover : JS.Number;
  trades : JS.Number;
  deliverable : JS.Number;
  percent_deliverable : JS.Number
}.

(** How [stockData.save()] settles. *)
Inductive SaveResult :=
| Saved
| Failed (message : string).

End Stock.

(** ** The pipeline (router.js, [validateCSVAndStoreCSV]) *)

Definition REQUIRED_COLUMNS : list string :=
  [ "Date"; "Symbol"; "Series"; "Prev Close"; "Open"; "High"; "Low";
    "Last"; "Close"; "VWAP"; "Volume"; "Turnover"; "Trades";
    "Deliverable Volume"; "%Deliverble" ].

Definition dateFormats : list string :=
  [ "YYYY-MM-DD"; "MM/DD/YYYY"; "DD-MM-YYYY" ].

Definition numericFields : list string :=
  [ "Prev Close"; "Open"; "High"; "Low";
    "Last"; "Close"; "VWAP"; "Volume";
    "Turnover"; "Trades"; "Deliverable Volume"; "%Deliverble" ].

(** What the promise returned by [validateCSVAndStoreCSV] settles with. *)
Inductive Outcome :=
  (* resolve({ message, totalRecords, failedRecords, successfulRecords }) *)
| Resolve (message : string) (totalRecords failedRecords successfulRecords : Z)
  (* reject({ error, totalRecords, failedRecords, successfulRecords,
              failureReasons }) *)
| RejectReport (error : string) (totalRecords failedRecords successfulRecords : Z)
    (failureReasons : list string)
  (* reject(new Error(message)) *)
| RejectError (message : string)
  (* reject({ error: err.message }) *)
| RejectStream (error : string).

(** The variables the handlers close over, the save calls issued so far and
    the state of the promise. [saves] maps the index of a row to the document
    whose [save()] was called while handling that row; [settled] holds the
    saves whose continuation has run. *)
Record State := mkState {
  length_ : Z;
  numberoffailedrecords : Z;
  numberofsucceedrecords : Z;
  failurereasons : list string;
  errors : list string;
  columns : gset string;
  saves : gmap Z Stock.t;
  settled : gmap Z Stock.SaveResult;
  promise : option Outcome
}.

Definition initial : State :=
  {| length_ := 0; numberoffailedrecords := 0; numberofsucceedrecords := 0;
     failurereasons := []; errors := []; columns := ∅;
     saves := ∅; settled := ∅; promise := None |}.

(** [failurereasons.add(error); errors.push(error)]. *)
Definition addError (error : string) (st : State) : State :=
  {| length_ := length_ st;
     numberoffailedrecords := numberoffailedrecords st;
     numberofsucceedrecords := numberofsucceedrecords st;
     failurereasons := JS.Set_add (failurereasons st) error;
     errors := (errors st ++ [error])%list;
     columns := columns st;
     saves := saves st; settled := settled st; promise := promise st |}.

(** [numberoffailedrecords += 1]. *)
Definition failRecord (st : State) : State :=
  {| length_ := length_ st;
     numberoffailedrecords := numberoffailedrecords st + 1;
     numberofsucceedrecords := numberofsucceedrecords st;
     failurereasons := failurereasons st;
     errors := errors st;
     columns := columns st;
     saves := saves st; settled := settled st; promise := promise st |}.

(** The promise settles once; later calls of [resolve] / [reject] have no
    effect. *)
Definition settle (o : Outcome) (st : State) : State :=
  match promise st with
  | Some _ => st
  | None =>
      {| length_ := length_ st;
         numberoffailedrecords := numberoffailedrecords st;
         numberofsucceedrecords := numberofsucceedrecords st;
         failurereasons := failurereasons st;
         errors := errors st;
         columns := columns st;
         saves := saves st; settled := settled st; promise := Some o |}
  end.

(** The ['headers'] handler. *)
Definition onHeaders (headers : list string) (st : State) : State :=
  {| length_ := length_ st;
     numberoffailedrecords := numberoffailedrecords st;
     numberofsucceedrecords := numberofsucceedrecords st;
     failurereasons := failurereasons st;
     errors := errors st;
     columns :=
       fold_left (fun cols header => cols ∪ {[ JS.trim header ]})
                 headers (columns st);
     saves := saves st; settled := settled st; promise := promise st |}.

Definition isValidDate (row : gmap string string) : bool :=
  existsb (fun format => Moment.isValid (Moment.moment (row !! "Date") format))
          dateFormats.

(** The test of one numeric field: [isNaN(parsedValue) || value === '']. *)
Definition invalidNumber (value : JS.value) : bool :=
  JS.isNaN (JS.parseFloat value) || bool_decide (value = Some "").

Definition dateError (n : Z) : string :=
  "Invalid date format in row " +:+ JS.NumberToString n.

Definition numberError (field : string) (n : Z) : string :=
  "Invalid number in field '" +:+ field +:+ "' in row " +:+ JS.NumberToString n.

Definition saveError (n : Z) (message : string) : string :=
  "Error saving record in row " +:+ JS.NumberToString n +:+ ": " +:+ message.

(** The date check of the ['data'] handler. *)
Definition checkDate (row : gmap string string)
    (acc : State * bool) : State * bool :=
  let '(st, recordfailed) := acc in
  if negb (isValidDate row)
  then (addError (dateError (length_ st)) st, true)
  else (st, recordfailed).

(** The body of [numericFields.forEach]. *)
Definition checkNumber (row : gmap string string)
    (acc : State * bool) (field : string) : State * bool :=
  let '(st, recordfailed) := acc in
  let value := row !! field in
  if invalidNumber value
  then (addError (numberError field (length_ st)) st, true)
  else (st, recordfailed).

Definition newStock (row : gmap string string) : Stock.t :=
  {| Stock.date :=
       Moment.format (Moment.momentFormats (row !! "Date") dateFormats)
                     "YYYY-MM-DD";
     Stock.symbol := row !! "Symbol";
     Stock.series := row !! "Series";
     Stock.prev_close := JS.parseFloat (row !! "Prev Close");
     Stock.open := JS.parseFloat (row !! "Open");
     Stock.high := JS.parseFloat (row !! "High");
     Stock.low := JS.parseFloat (row !! "Low");
     Stock.last := JS.parseFloat (row !! "Last");
     Stock.close := JS.parseFloat (row !! "Close");
     Stock.vwap := JS.parseFloat (row !! "VWAP");
     Stock.volume := JS.parseInt (row !! "Volume");
     Stock.turnover := JS.parseFloat (row !! "Turnover");
     Stock.trades := JS.parseInt (row !! "Trades");
     Stock.deliverable := JS.parseInt (row !! "Deliverable Volume");
     Stock.percent_deliverable := JS.parseFloat (row !! "%Deliverble") |}.

(** [stockData.save()] is called for the row being handled; the handler then
    waits for it. *)
Definition callSave (stockData : Stock.t) (st : State) : State :=
  {| length_ := length_ st;
     numberoffailedrecords := numberoffailedrecords st;
     numberofsucceedrecords := numberofsucceedrecords st;
     failurereasons := failurereasons st;
     errors := errors st;
     columns := columns st;
     saves := <[ length_ st := stockData ]> (saves st);
     settled := settled st; promise := promise st |}.

(** [length += 1]. *)
Definition countRow (st : State) : State :=
  {| length_ := length_ st + 1;
     numberoffailedrecords := numberoffailedrecords st;
     numberofsucceedrecords := numberofsucceedrecords st;
     failurereasons := failurereasons st;
     errors := errors st;
     columns := columns st;
     saves := saves st; settled := settled st; promise := promise st |}.

(** The ['data'] handler up to its [await]. *)
Definition onData (row : gmap string string) (st : State) : State :=
  let st := countRow st in
  let '(st, recordfailed) :=
    fold_left (checkNumber row) numericFields (checkDate row (st, false)) in
  if recordfailed then failRecord st
  else callSave (newStock row) st.

(** The ['data'] handler after its [await], run when the save issued for row
    [i] settles: the [try] continues or the [catch] runs. Both read the
    shared variables as they are at that moment. An event for a row with no
    save in flight has no continuation to run. *)
Definition onSaveSettled (i : Z) (r : Stock.SaveResult) (st : State) : State :=
  match saves st !! i, settled st !! i with
  | Some _, None =>
      let st :=
        {| length_ := length_ st;
           numberoffailedrecords := numberoffailedrecords st;
           numberofsucceedrecords := numberofsucceedrecords st;
           failurereasons := failurereasons st;
           errors := errors st;
           columns := columns st;
           saves := saves st;
           settled := <[ i := r ]> (settled st);
           promise := promise st |} in
      match r with
      | Stock.Saved =>
          {| length_ := length_ st;
             numberoffailedrecords := numberoffailedrecords st;
             numberofsucceedrecords := numberofsucceedrecords st + 1;
             failurereasons := failurereasons st;
             errors := errors st;
             columns := columns st;
             saves := saves st; settled := settled st; promise := promise st |}
      | Stock.Failed message =>
          failRecord (addError (saveError (length_ st) message) st)
      end
  | _, _ => st
  end.

Definition missingColumns (cols : gset string) : list string :=
  List.filter (fun col => negb (bool_decide (col ∈ cols))) REQUIRED_COLUMNS.

(** The ['end'] handler. *)
Definition onEnd (st : State) : State :=
  let missing := missingColumns (columns st) in
  if (0 <? Z.of_nat (List.length missing))%Z then
    settle (RejectError ("Missing columns: " +:+ JS.join ", " missing)) st
  else
    let st :=
      {| length_ := length_ st;
         numberoffailedrecords := numberoffailedrecords st;
         numberofsucceedrecords := length_ st - numberoffailedrecords st;
         failurereasons := failurereasons st;
         errors := errors st;
         columns := columns st;
         saves := saves st; settled := settled st; promise := promise st |} in
    if (0 <? Z.of_nat (List.length (errors st)))%Z then
      settle (RejectReport "Validation errors found"
                (length_ st) (numberoffailedrecords st)
                (numberofsucceedrecords st)
                (JS.Array_from (failurereasons st))) st
    else
      settle (Resolve "File validated successfully"
                (length_ st) (numberoffailedrecords st)
                (numberofsucceedrecords st)) st.

(** The ['error'] handler. *)
Definition onError (message : string) (st : State) : State :=
  settle (RejectStream message) st.

(** What reaches the handlers: the events of the parser stream, and the
    settling of a save issued for row [i]. *)
Inductive Event :=
| EvHeaders (headers : list string)
| EvData (row : gmap string string)
| EvSaveSettled (i : Z) (r : Stock.SaveResult)
| EvEnd
| EvError (message : string).

Definition step (st : State) (ev : Event) : State :=
  match ev with
  | EvHeaders headers => onHeaders headers st
  | EvData row => onData row st
  | EvSaveSettled i r => onSaveSettled i r st
  | EvEnd => onEnd st
  | EvError message => onError message st
  end.

Definition run (evs : list Event) : State := fold_left step evs initial.

(** The outcome of [validateCSVAndStoreCSV] once the events [evs] have been
    handled: [None] while the promise is pending. *)
Definition validateCSVAndStoreCSV (evs : list Event) : option Outcome :=
  promise (run evs).

(** ** Derived descriptions used by the statements *)

(** The events delivered while the stream is still flowing: neither ['end']
    nor ['error'] has been emitted. *)
Definition streaming (evs : list Event) : bool :=
  forallb (fun ev => match ev with EvEnd | EvError _ => false | _ => true end)
          evs.

(** The header names seen by the ['headers'] handler, trimmed. *)
Fixpoint observedHeaders (evs : list Event) : gset string :=
  match evs with
  | [] => ∅
  | EvHeaders headers :: evs' =>
      list_to_set (JS.trim <$> headers) ∪ observedHeaders evs'
  | _ :: evs' => observedHeaders evs'
  end.

(** The reasons one row gives rise to, in the order the handler finds them. *)
Definition dateReasons (row : gmap string string) (n : Z) : list string :=
  if negb (isValidDate row) then [dateError n] else [].

Definition numberReasons (row : gmap string string) (n : Z)
    (fields : list string) : list string :=
  flat_map (fun field =>
              if invalidNumber (row !! field) then [numberError field n]
              else []) fields.

Definition rowReasons (row : gmap string string) (n : Z) : list string :=
  (dateReasons row n ++ numberReasons row n numericFields)%list.

Definition addErrors (rs : list string) (st : State) : State :=
  fold_left (fun st e => addError e st) rs st.

(** The distinct strings of a list, each at the place of its first
    occurrence. *)
Fixpoint firstOccurrences (l : list string) : list string :=
  match l with
  | [] => []
  | x :: l' => x :: List.filter (fun y => negb (bool_decide (y = x)))
                                (firstOccurrences l')
  end.

(** A row passes validation: its date and its twelve numeric fields do. *)
Definition accepted (row : gmap string string) : Prop :=
  isValidDate row &&
  forallb (fun field => negb (invalidNumber (row !! field))) numericFields
  = true.

(** ** The numeric check, described

    [startsDecimalLiteral s]: after leading white space and an optional sign,
    [s] begins with a decimal digit, with [.] and a decimal digit, or with
    [Infinity]; that is, some prefix of the trimmed string is a
    StrDecimalLiteral. *)
Definition startsDecimalLiteral (s : string) : bool :=
  let '(_, s1) := JS.takeSign (JS.trimStart s) in
  JS.isPrefix "Infinity" s1 ||
  match s1 with
  | String c rest =>
      JS.isDigit c ||
      (Ascii.eqb c "." &&
       match rest with String d _ => JS.isDigit d | EmptyString => false end)
  | EmptyString => false
  end.

(** The count fields of the specification. *)
Definition countFields : list string :=
  [ "Volume"; "Trades"; "Deliverable Volume" ].

(** The numeric check in the words of the specification: the raw string is
    non-empty and parses as a finite decimal, and as an integer for a count
    field. *)
Definition specAcceptsNumber (field : string) (value : JS.value) : bool :=
  match value with
  | Some raw =>
      negb (String.eqb raw "") &&
      JS.isFinite (JS.parseFloat value) &&
      (if bool_decide (field ∈ countFields)
       then JS.isInteger (JS.parseFloat value) else true)
  | None => false
  end.

(** How many of the thirteen checks of a row fail. *)
Definition failingChecks (row : gmap string string) : nat :=
  ((if isValidDate row then 0 else 1) +
   List.length (List.filter (fun field => invalidNumber (row !! field))
                            numericFields))%nat.

(** The reasons that can be in the reason set once [bound] rows have been
    counted: a save error, or a validation reason of one of the rows
    1..[bound]. *)
Definition knownReason (bound : Z) (x : string) : Prop :=
  (∃ m message, x = saveError m message) ∨
  (∃ m, (1 ≤ m ≤ bound)%Z ∧
        (x = dateError m ∨ ∃ f, f ∈ numericFields ∧ x = numberError f m)).

(** The invariant of the handlers' shared variables. *)
Definition consistent (st : State) : Prop :=
  (0 ≤ length_ st)%Z ∧
  failurereasons st = firstOccurrences (errors st) ∧
  ∀ x, x ∈ failurereasons st → knownReason (length_ st) x.

(** Two strings differ at a position both have. *)
Fixpoint diverge (s t : string) : bool :=
  match s, t with
  | String a s', String b t' => if Ascii.eqb a b then diverge s' t' else true
  | _, _ => false
  end.

(** ** Sample rows

    A row as the parser builds it under the complete header, from the cells
    of one line. *)

Definition rowOf (cells : list string) : gmap string string :=
  list_to_map (zip REQUIRED_COLUMNS cells).

Definition validRow : gmap string string :=
  rowOf [ "2024-01-01"; "ABC"; "EQ"; "100"; "101"; "102"; "99"; "101"; "102";
          "101.5"; "1000"; "10000"; "10"; "500"; "50.0" ].

Definition invalidRow : gmap string string :=
  rowOf [ "InvalidDate"; "ABC"; "EQ"; "abc"; "101"; "102"; "99"; "101"; "102";
          "101.5"; "1000"; "10000"; "10"; "500"; "50.0" ].

(** The valid row with its date written month first. *)
Definition slashDateRow : gmap string string :=
  <[ "Date" := "01/31/2024" ]> validRow.

(** ** Further descriptions of a run *)

(** The rows read, in the order of their ['data'] events. *)
Fixpoint dataRows (evs : list Event) : list (gmap string string) :=
  match evs with
  | [] => []
  | EvData row :: evs' => row :: dataRows evs'
  | _ :: evs' => dataRows evs'
  end.

Definition isFailed (r : Stock.SaveResult) : bool :=
  match r with
  | Stock.Failed _ => true
  | Stock.Saved => false
  end.

(** The saves that have settled with a failure, and with a success. *)
Definition failedSaves (st : State) : gmap Z Stock.SaveResult :=
  filter (fun kv => isFailed kv.2 = true) (settled st).

Definition succeededSaves (st : State) : gmap Z Stock.SaveResult :=
  filter (fun kv => isFailed kv.2 = false) (settled st).

(** The rows whose save has been called and has not settled. *)
Definition inFlight (st : State) : gset Z :=
  dom (saves st) ∖ dom (settled st).

(** The bookkeeping the handlers keep between the counters, the array of
    errors and the saves. *)
Definition counted (st : State) : Prop :=
  (0 ≤ length_ st)%Z ∧
  (0 ≤ numberoffailedrecords st)%Z ∧
  (∀ i, i ∈ dom (saves st) → (1 ≤ i ≤ length_ st)%Z) ∧
  dom (settled st) ⊆ dom (saves st) ∧
  numberoffailedrecords st =
    (length_ st - Z.of_nat (size (saves st)) +
     Z.of_nat (size (failedSaves st)))%Z ∧
  (numberoffailedrecords st ≤ Z.of_nat (List.length (errors st)))%Z ∧
  (errors st = [] ∨ (1 ≤ numberoffailedrecords st)%Z).

(** The counts of a report; [None] for an outcome that carries none. *)
Definition totalRecords (o : Outcome) : option Z :=
  match o with
  | Resolve _ t _ _ | RejectReport _ t _ _ _ => Some t
  | _ => None
  end.

Definition failedRecords (o : Outcome) : option Z :=
  match o with
  | Resolve _ _ f _ | RejectReport _ _ f _ _ => Some f
  | _ => None
  end.

Definition successfulRecords (o : Outcome) : option Z :=
  match o with
  | Resolve _ _ _ s | RejectReport _ _ _ s _ => Some s
  | _ => None
  end.

(** A reason that names one of the rows 1..[bound]. *)
Definition rowReason (bound : Z) (x : string) : Prop :=
  ∃ m, (1 ≤ m ≤ bound)%Z ∧
       (x = dateError m ∨
        (∃ f, f ∈ numericFields ∧ x = numberError f m) ∨
        (∃ message, x = saveError m message)).

(** A value that is absent, empty or made of white space only. *)
Definition blank (v : JS.value) : bool :=
  match v with
  | None => true
  | Some s => String.eqb (JS.trimStart s) ""
  end.

(** Three valid rows read, the save of the second one settled. *)
Definition threeRowsOneSaved : list Event :=
  [ EvHeaders REQUIRED_COLUMNS; EvData validRow; EvData validRow;
    EvData validRow; EvSaveSettled 2 Stock.Saved ].




(** The order of two calendar dates. *)
Definition dateCompare (a b : Moment.DateArray) : comparison :=
  match Z.compare (Moment.YEAR a) (Moment.YEAR b) with
  | Eq =>
      match Z.compare (Moment.MONTH a) (Moment.MONTH b) with
      | Eq => Z.compare (Moment.DATE a) (Moment.DATE b)
      | c => c
      end
  | c => c
  end.

(** ** The upload route (router.js) *)

(** [path.extname] of Node.js, POSIX flavour: one pass over the code units of
    the path from its end, then a slice. *)
Module Path.

Record Scan := mkScan {
  startDot : Z;
  startPart : Z;
  end_ : Z;
  matchedSlash : bool;
  preDotState : Z
}.

Definition start : Scan :=
  {| startDot := -1; startPart := 0; end_ := -1; matchedSlash := true;
     preDotState := 0 |}.

(** The loop [for (let i = path.length - 1; i >= 0; --i)]: [codes] holds the
    code units at the indices [i], [i - 1], ..., 0. *)
Fixpoint scan (codes : list ascii) (i : Z) (st : Scan) : Scan :=
  match codes with
  | [] => st
  | code :: codes' =>
      if Ascii.eqb code "/" then
        if negb (matchedSlash st) then
          (* startPart = i + 1; break *)
          {| startDot := startDot st; startPart := i + 1; end_ := end_ st;
             matchedSlash := matchedSlash st; preDotState := preDotState st |}
        else scan codes' (i - 1) st
      else
        let st :=
          if (end_ st =? -1)%Z then
            {| startDot := startDot st; startPart := startPart st;
               end_ := i + 1; matchedSlash := false;
               preDotState := preDotState st |}
          else st in
        let st :=
          if Ascii.eqb code "." then
            if (startDot st =? -1)%Z then
              {| startDot := i; startPart := startPart st; end_ := end_ st;
                 matchedSlash := matchedSlash st;
                 preDotState := preDotState st |}
            else if negb (preDotState st =? 1)%Z then
              {| startDot := startDot st; startPart := startPart st;
                 end_ := end_ st; matchedSlash := matchedSlash st;
                 preDotState := 1 |}
            else st
          else if negb (startDot st =? -1)%Z then
            {| startDot := startDot st; startPart := startPart st;
               end_ := end_ st; matchedSlash := matchedSlash st;
               preDotState := -1 |}
          else st in
        scan codes' (i - 1) st
  end.

Definition extname (path : string) : string :=
  let st := scan (List.rev (list_ascii_of_string path))
                 (Z.of_nat (String.length path) - 1) start in
  if ((startDot st =? -1)%Z || (end_ st =? -1)%Z || (preDotState st =? 0)%Z ||
      ((preDotState st =? 1)%Z && (startDot st =? end_ st - 1)%Z &&
       (startDot st =? startPart st + 1)%Z))%bool
  then ""
  else String.substring (Z.to_nat (startDot st))
                        (Z.to_nat (end_ st - startDot st)) path.

End Path.

(** [String.prototype.toLowerCase] on the code units below 256: the letters
    A-Z and the Latin-1 capitals U+00C0-U+00DE other than U+00D7. *)
Definition lowerCode (c : ascii) : ascii :=
  let n := N_of_ascii c in
  if ((65 <=? n) && (n <=? 90) ||
      (192 <=? n) && (n <=? 222) && negb (n =? 215))%N
  then ascii_of_N (n + 32) else c.

Fixpoint toLowerCase (s : string) : string :=
  match s with
  | String c rest => String (lowerCode c) (toLowerCase rest)
  | EmptyString => EmptyString
  end.

(** What multer's [fileFilter] passes to its callback: [cb(null, true)] or
    [cb(new Error(message), false)]. *)
Inductive FilterResult :=
| AcceptFile
| RefuseFile (message : string).

Definition fileFilter (originalname : string) : FilterResult :=
  let ext := toLowerCase (Path.extname originalname) in
  if String.eqb ext ".csv" then AcceptFile
  else RefuseFile "Only CSV files are allowed".

(** The values of the members of the objects [res.json] sends here: a
    string, a number, or an array of strings. *)
Inductive JSON :=
| JString (s : string)
| JNumber (n : Z)
| JStrings (items : list string).

(** [JSON.stringify] of what the promise settled with: the enumerable own
    properties of the object, in the order they were written; an [Error]
    has none. *)
Definition toJSON (o : Outcome) : list (string * JSON) :=
  match o with
  | Resolve message t f s =>
      [ ("message", JString message); ("totalRecords", JNumber t);
        ("failedRecords", JNumber f); ("successfulRecords", JNumber s) ]
  | RejectReport error t f s rs =>
      [ ("error", JString error); ("totalRecords", JNumber t);
        ("failedRecords", JNumber f); ("successfulRecords", JNumber s);
        ("failureReasons", JStrings rs) ]
  | RejectError _ => []
  | RejectStream error => [ ("error", JString error) ]
  end.

(** A response: its status and the members of the JSON object sent. *)
Record Response := mkResponse {
  status : Z;
  body : list (string * JSON)
}.

(** The handler of [POST /upload]. [file] is [req.file] as multer leaves it
    ([None]: no file); [evs] are the events of reading the uploaded file.
    The result is the response sent, if any yet, and the path handed to
    [fs.unlink] by the [finally] block, if it has run. *)
Definition postUpload (file : option string) (evs : list Event)
    : option Response * option string :=
  match file with
  | None =>
      (Some {| status := 400;
               body := [ ("error",
                          JString "No file uploaded or invalid file type") ] |},
       None)
  | Some path =>
      match validateCSVAndStoreCSV evs with
      | None => (None, None)
      | Some (Resolve message t f s) =>
          (Some {| status := 201; body := toJSON (Resolve message t f s) |},
           Some path)
      | Some error =>
          (Some {| status := 400; body := toJSON error |}, Some path)
      end
  end.

(** ** Strings *)

Section Strings.

Implicit Types s t : string.

Lemma string_app_cons c s t : String c s +:+ t = String c (s +:+ t).
Proof. reflexivity. Qed.

Lemma string_app_nil s : "" +:+ s = s.
Proof. reflexivity. Qed.

Lemma string_app_length s t :
  String.length (s +:+ t) = (String.length s + String.length t)%nat.
Proof.
  induction s as [|c s IHs]; [done|].
  rewrite string_app_cons. cbn [String.length]. by rewrite IHs.
Qed.

Lemma string_app_assoc s t u : (s +:+ t) +:+ u = s +:+ (t +:+ u).
Proof.
  induction s as [|c s IHs]; [done|].
  rewrite !string_app_cons. by rewrite IHs.
Qed.

Lemma string_app_inv_tail s1 s2 t : s1 +:+ t = s2 +:+ t → s1 = s2.
Proof.
  revert s2. induction s1 as [|c s1 IHs]; intros [|d s2] Heq;
    rewrite ?string_app_cons, ?string_app_nil in Heq.
  - done.
  - apply (f_equal String.length) in Heq. cbn [String.length] in Heq.
    rewrite string_app_length in Heq. lia.
  - apply (f_equal String.length) in Heq. cbn [String.length] in Heq.
    rewrite string_app_length in Heq. lia.
  - injection Heq as -> Heq. f_equal. by apply IHs.
Qed.

End Strings.

(** ** [parseFloat] *)

Section ParseFloat.

Lemma takeDigits_cons c rest :
  JS.takeDigits (String c rest) =
  match JS.digitValue c with
  | Some d => (d :: (JS.takeDigits rest).1, (JS.takeDigits rest).2)
  | None => ([], String c rest)
  end.
Proof.
  cbn [JS.takeDigits]. destruct (JS.digitValue c); [|done].
  by destruct (JS.takeDigits rest).
Qed.

(** [parseFloat] gives [NaN] exactly when no prefix is a decimal literal. *)
Lemma parseFloat_isNaN (v : JS.value) :
  JS.isNaN (JS.parseFloat v) = negb (startsDecimalLiteral (JS.ToString v)).
Proof.
  unfold JS.parseFloat, startsDecimalLiteral.
  destruct (JS.takeSign (JS.trimStart (JS.ToString v))) as [neg s1].
  destruct (JS.isPrefix "Infinity" s1); [done|].
  rewrite orb_false_l.
  destruct s1 as [|c rest]; [done|].
  rewrite takeDigits_cons. unfold JS.isDigit.
  destruct (JS.digitValue c) as [d|].
  - by destruct (match (JS.takeDigits rest).2 with
                 | EmptyString => _ | String _ _ => _ end).
  - rewrite orb_false_l.
    destruct (Ascii.eqb c "."); [|done].
    rewrite andb_true_l.
    destruct rest as [|c' rest']; [done|].
    rewrite takeDigits_cons.
    by destruct (JS.digitValue c').
Qed.

Lemma invalidNumber_starts (v : JS.value) :
  invalidNumber v = negb (startsDecimalLiteral (JS.ToString v)).
Proof.
  unfold invalidNumber. rewrite parseFloat_isNaN.
  case_bool_decide as Hv; [|by rewrite orb_false_r].
  by subst v.
Qed.

End ParseFloat.

(** ** Dates: strict parsing and formatting *)

Section Dates.

Import Moment.

Lemma digitValue_lt c d : JS.digitValue c = Some d → (d < 10)%N.
Proof.
  unfold JS.digitValue. cbv zeta.
  destruct ((48 <=? N_of_ascii c)%N && (N_of_ascii c <=? 57)%N) eqn:Hr;
    [|done].
  intros [= <-].
  apply andb_true_iff in Hr as [H1 H2].
  apply N.leb_le in H1, H2. lia.
Qed.

Lemma digitValue_inj c1 c2 d :
  JS.digitValue c1 = Some d → JS.digitValue c2 = Some d → c1 = c2.
Proof.
  unfold JS.digitValue. cbv zeta.
  destruct ((48 <=? N_of_ascii c1)%N && (N_of_ascii c1 <=? 57)%N) eqn:Hr1;
    [|done].
  intros [= <-].
  destruct ((48 <=? N_of_ascii c2)%N && (N_of_ascii c2 <=? 57)%N) eqn:Hr2;
    [|done].
  intros [= Heq].
  apply andb_true_iff in Hr1 as [H1 _], Hr2 as [H2 _].
  apply N.leb_le in H1, H2.
  rewrite <- (ascii_N_embedding c1), <- (ascii_N_embedding c2).
  f_equal. lia.
Qed.

(** Reading digits does not look past them. *)
Lemma readDigits_app n s acc v rest :
  readDigits n s acc = Some (v, "") →
  readDigits n (s +:+ rest) acc = Some (v, rest).
Proof.
  revert s acc. induction n as [|n IHn]; intros s acc; cbn [readDigits].
  - by intros [= -> ->].
  - destruct s as [|c s]; [done|]. rewrite string_app_cons.
    destruct (JS.digitValue c); [|done]. apply IHn.
Qed.

Lemma readDigits_split n s acc v r :
  readDigits n s acc = Some (v, r) →
  ∃ ds, s = ds +:+ r ∧ readDigits n ds acc = Some (v, "").
Proof.
  revert s acc. induction n as [|n IHn]; intros s acc; cbn [readDigits].
  - intros [= -> ->]. by exists "".
  - destruct s as [|c s]; [done|].
    destruct (JS.digitValue c) as [d|] eqn:Hc; [|done].
    intros Hr. apply IHn in Hr as (ds & -> & Hds).
    exists (String c ds). split; [done|]. cbn [readDigits]. by rewrite Hc.
Qed.

(** The digits read determine the string read. *)
Lemma readDigits_inj n s1 s2 acc1 acc2 v :
  readDigits n s1 acc1 = Some (v, "") →
  readDigits n s2 acc2 = Some (v, "") →
  acc1 = acc2 ∧ s1 = s2.
Proof.
  revert s1 s2 acc1 acc2.
  induction n as [|n IHn]; intros s1 s2 acc1 acc2; cbn [readDigits].
  - by intros [= -> ->] [= -> ->].
  - destruct s1 as [|c1 s1]; [done|]. destruct s2 as [|c2 s2]; [done|].
    destruct (JS.digitValue c1) as [d1|] eqn:Hc1; [|done].
    destruct (JS.digitValue c2) as [d2|] eqn:Hc2; [|done].
    intros H1 H2. destruct (IHn _ _ _ _ H1 H2) as [Hacc ->].
    pose proof (digitValue_lt _ _ Hc1). pose proof (digitValue_lt _ _ Hc2).
    assert (acc1 = acc2 ∧ d1 = d2) as [-> ->] by lia.
    split; [done|]. f_equal. by apply (digitValue_inj _ _ d2).
Qed.

Lemma readDigits_bound n s acc v r :
  readDigits n s acc = Some (v, r) →
  (acc * 10 ^ Z.of_nat n ≤ v < (acc + 1) * 10 ^ Z.of_nat n)%Z.
Proof.
  revert s acc. induction n as [|n IHn]; intros s acc; cbn [readDigits].
  - intros [= -> ->]. cbn. lia.
  - destruct s as [|c s]; [done|].
    destruct (JS.digitValue c) as [d|] eqn:Hc; [|done].
    intros Hr. apply IHn in Hr. pose proof (digitValue_lt _ _ Hc).
    rewrite Nat2Z.inj_succ, Z.pow_succ_r by lia.
    split; nia.
Qed.

(** Padding to four or two digits and reading back. *)
Lemma readDigits_zeroFill4 v :
  (0 ≤ v < 10000)%Z → readDigits 4 (zeroFill v 4) 0 = Some (v, "").
Proof.
  intros Hv.
  assert (forallb (fun v => bool_decide
            (readDigits 4 (zeroFill v 4) 0 = Some (v, "")))
            (seqZ 0 10000) = true) as Hall by (by vm_compute).
  rewrite forallb_forall in Hall.
  eapply bool_decide_eq_true_1, Hall, list_elem_of_In, elem_of_seqZ. lia.
Qed.

Lemma readDigits_zeroFill2 v :
  (0 ≤ v < 100)%Z → readDigits 2 (zeroFill v 2) 0 = Some (v, "").
Proof.
  intros Hv.
  assert (forallb (fun v => bool_decide
            (readDigits 2 (zeroFill v 2) 0 = Some (v, "")))
            (seqZ 0 100) = true) as Hall by (by vm_compute).
  rewrite forallb_forall in Hall.
  eapply bool_decide_eq_true_1, Hall, list_elem_of_In, elem_of_seqZ. lia.
Qed.

Lemma readDigits4_zeroFill s v r :
  readDigits 4 s 0 = Some (v, r) → s = zeroFill v 4 +:+ r.
Proof.
  intros Hr. pose proof (readDigits_bound _ _ _ _ _ Hr) as Hb.
  apply readDigits_split in Hr as (ds & -> & Hds). f_equal.
  apply (readDigits_inj 4 _ _ 0 0 v Hds), readDigits_zeroFill4.
  cbn in Hb. lia.
Qed.

Lemma readDigits2_zeroFill s v r :
  readDigits 2 s 0 = Some (v, r) → s = zeroFill v 2 +:+ r.
Proof.
  intros Hr. pose proof (readDigits_bound _ _ _ _ _ Hr) as Hb.
  apply readDigits_split in Hr as (ds & -> & Hds). f_equal.
  apply (readDigits_inj 2 _ _ 0 0 v Hds), readDigits_zeroFill2.
  cbn in Hb. lia.
Qed.

Lemma tokenize_dateFormats :
  tokenize "YYYY-MM-DD" = [YYYY; Lit "-"; MM; Lit "-"; DD] ∧
  tokenize "MM/DD/YYYY" = [MM; Lit "/"; DD; Lit "/"; YYYY] ∧
  tokenize "DD-MM-YYYY" = [DD; Lit "-"; MM; Lit "-"; YYYY].
Proof. done. Qed.

(** One step of the case analysis of a strict parse that succeeded. *)
Ltac parse_step H :=
  match type of H with
  | context [readDigits ?n ?s 0] =>
      let E := fresh "Hread" in
      destruct (readDigits n s 0) as [[? ?]|] eqn:E; [|discriminate H]
  | context [Ascii.eqb ?a ?b] =>
      destruct (Ascii.eqb_spec a b); [subst|discriminate H]
  | context [match ?s with EmptyString => _ | String _ _ => _ end] =>
      destruct s; try discriminate H
  end.

Ltac parse_all H Htok :=
  unfold moment in H; rewrite Htok in H; cbn [JS.ToString] in H;
  cbn [parseTokens] in H; repeat parse_step H.

(** A date parsed under the canonical layout is printed as it was
    written. *)
Lemma moment_canonical_format s a :
  moment (Some s) "YYYY-MM-DD" = Some a →
  format (Some a) "YYYY-MM-DD" = s.
Proof.
  intros Hm. unfold format.
  destruct tokenize_dateFormats as (Htok & _ & _). rewrite Htok.
  parse_all Hm Htok.
  destruct (noOverflow _); [|done]. injection Hm as <-.
  cbn [formatTokens YEAR MONTH DATE].
  rewrite Z.sub_add.
  apply readDigits4_zeroFill in Hread as ->.
  apply readDigits2_zeroFill in Hread0 as ->.
  apply readDigits2_zeroFill in Hread1 as ->.
  reflexivity.
Qed.

(** What a strict parse under one of the three layouts yields. *)
Lemma moment_ranges v fmt a :
  fmt ∈ dateFormats → moment v fmt = Some a →
  ((0 ≤ YEAR a < 10000)%Z ∧ (0 ≤ MONTH a + 1 < 100)%Z ∧ (0 ≤ DATE a < 100)%Z) ∧
  noOverflow a = true.
Proof.
  intros Hf Hm.
  destruct tokenize_dateFormats as (H1 & H2 & H3).
  unfold dateFormats in Hf.
  repeat (apply elem_of_cons in Hf as [->|Hf]); [| | |by apply elem_of_nil in Hf].
  - parse_all Hm H1.
    destruct (noOverflow _) eqn:Hno; [|done]. injection Hm as <-.
    apply readDigits_bound in Hread, Hread0, Hread1.
    cbn [YEAR MONTH DATE]. cbn in Hread, Hread0, Hread1. split; [lia|done].
  - parse_all Hm H2.
    destruct (noOverflow _) eqn:Hno; [|done]. injection Hm as <-.
    apply readDigits_bound in Hread, Hread0, Hread1.
    cbn [YEAR MONTH DATE]. cbn in Hread, Hread0, Hread1. split; [lia|done].
  - parse_all Hm H3.
    destruct (noOverflow _) eqn:Hno; [|done]. injection Hm as <-.
    apply readDigits_bound in Hread, Hread0, Hread1.
    cbn [YEAR MONTH DATE]. cbn in Hread, Hread0, Hread1. split; [lia|done].
Qed.

(** The canonical rendering of a date in range parses back to it. *)
Lemma format_canonical_moment a :
  (0 ≤ YEAR a < 10000)%Z → (0 ≤ MONTH a + 1 < 100)%Z → (0 ≤ DATE a < 100)%Z →
  noOverflow a = true →
  moment (Some (format (Some a) "YYYY-MM-DD")) "YYYY-MM-DD" = Some a.
Proof.
  intros Hy Hm Hd Hno. unfold moment, format.
  destruct tokenize_dateFormats as (-> & _ & _).
  cbn [JS.ToString formatTokens parseTokens].
  rewrite (readDigits_app _ _ _ _ _ (readDigits_zeroFill4 _ Hy)).
  rewrite Ascii.eqb_refl.
  rewrite (readDigits_app _ _ _ _ _ (readDigits_zeroFill2 _ Hm)).
  rewrite Ascii.eqb_refl.
  rewrite (readDigits_app _ _ _ _ _ (readDigits_zeroFill2 _ Hd)).
  rewrite Z.add_simpl_r.
  destruct a as [y m d]. cbn [YEAR MONTH DATE] in *. by rewrite Hno.
Qed.

(** The parse kept from an array of formats is that of the first format
    under which the input is valid. *)
Lemma momentFormats_first v formats a :
  momentFormats v formats = Some a ↔
  ∃ pre fmt post,
    formats = (pre ++ fmt :: post)%list ∧
    (∀ f, f ∈ pre → moment v f = None) ∧
    moment v fmt = Some a.
Proof.
  induction formats as [|f fs IHfs]; cbn [momentFormats].
  - split; [done|]. intros (pre & fmt & post & Heq & _). by destruct pre.
  - destruct (moment v f) as [a'|] eqn:Hf.
    + split.
      * intros [= ->]. exists [], f, fs. split; [done|]. split; [|done].
        intros g Hg. by apply elem_of_nil in Hg.
      * intros (pre & fmt & post & Heq & Hpre & Hfmt).
        destruct pre as [|g pre]; cbn in Heq; injection Heq as <- ->.
        -- congruence.
        -- rewrite Hpre in Hf; [done|by left].
    + rewrite IHfs. split.
      * intros (pre & fmt & post & -> & Hpre & Hfmt).
        exists (f :: pre), fmt, post. split; [done|]. split; [|done].
        intros g [->|Hg]%elem_of_cons; auto.
      * intros (pre & fmt & post & Heq & Hpre & Hfmt).
        destruct pre as [|g pre]; cbn in Heq; injection Heq as <- ->.
        -- congruence.
        -- exists pre, fmt, post. split; [done|]. split; [|done].
           intros g Hg. apply Hpre. by right.
Qed.

Lemma isValidDate_momentFormats row :
  isValidDate row = true →
  ∃ a, momentFormats (row !! "Date") dateFormats = Some a.
Proof.
  unfold isValidDate. generalize dateFormats as formats.
  induction formats as [|f fs IHfs]; cbn [existsb momentFormats]; [done|].
  destruct (moment (row !! "Date") f) as [a|]; [by eauto|].
  cbn [isValid orb]. apply IHfs.
Qed.

End Dates.

(** ** The reason strings *)

Section Reasons.

Implicit Types (row : gmap string string) (n m : Z) (f g : string).

Lemma numberError_inj_field f g n :
  numberError f n = numberError g n → f = g.
Proof.
  unfold numberError. intros Heq.
  apply (inj (String.append _)) in Heq.
  by apply string_app_inv_tail in Heq.
Qed.

Lemma dateError_inj n m : dateError n = dateError m → n = m.
Proof.
  unfold dateError, JS.NumberToString. intros Heq.
  apply (inj (String.append _)) in Heq. by apply (inj pretty) in Heq.
Qed.

Lemma dateError_numberError n f m : dateError n ≠ numberError f m.
Proof.
  intros Heq.
  assert (JS.isPrefix "Invalid d" (dateError n) = true) as Hp by reflexivity.
  rewrite Heq in Hp. discriminate Hp.
Qed.

Lemma dateError_saveError n m message : dateError n ≠ saveError m message.
Proof.
  intros Heq.
  assert (JS.isPrefix "I" (dateError n) = true) as Hp by reflexivity.
  rewrite Heq in Hp. discriminate Hp.
Qed.

Lemma numberError_saveError f n m message :
  numberError f n ≠ saveError m message.
Proof.
  intros Heq.
  assert (JS.isPrefix "I" (numberError f n) = true) as Hp by reflexivity.
  rewrite Heq in Hp. discriminate Hp.
Qed.

Lemma numericFields_NoDup : NoDup numericFields.
Proof. apply (bool_decide_unpack _). by vm_compute. Qed.

Lemma elem_of_numberReasons row n fields x :
  x ∈ numberReasons row n fields ↔
  ∃ f, f ∈ fields ∧ invalidNumber (row !! f) = true ∧ x = numberError f n.
Proof.
  unfold numberReasons. rewrite list_elem_of_In, in_flat_map. split.
  - intros (f & Hf & Hx). exists f. rewrite list_elem_of_In.
    destruct (invalidNumber (row !! f)); [|by destruct Hx].
    destruct Hx as [<-|[]]. done.
  - intros (f & Hf & Hinv & ->). exists f. rewrite <- list_elem_of_In.
    split; [done|]. rewrite Hinv. by left.
Qed.

Lemma numberReasons_NoDup row n fields :
  NoDup fields → NoDup (numberReasons row n fields).
Proof.
  induction 1 as [|f fields Hf Hnd IHnd]; [constructor|].
  change (numberReasons row n (f :: fields)) with
    ((if invalidNumber (row !! f) then [numberError f n] else []) ++
     numberReasons row n fields)%list.
  destruct (invalidNumber (row !! f)); [|done].
  constructor; [|done].
  rewrite elem_of_numberReasons. intros (g & Hg & _ & Heq).
  apply numberError_inj_field in Heq. by subst g.
Qed.

Lemma numberReasons_length row n fields :
  List.length (numberReasons row n fields) =
  List.length (List.filter (fun field => invalidNumber (row !! field)) fields).
Proof.
  induction fields as [|f fields IHf]; [done|].
  change (numberReasons row n (f :: fields)) with
    ((if invalidNumber (row !! f) then [numberError f n] else []) ++
     numberReasons row n fields)%list.
  cbn [List.filter]. destruct (invalidNumber (row !! f)); cbn; by rewrite IHf.
Qed.

Lemma rowReasons_NoDup row n : NoDup (rowReasons row n).
Proof.
  unfold rowReasons, dateReasons.
  pose proof (numberReasons_NoDup row n _ numericFields_NoDup) as Hnd.
  destruct (isValidDate row); [done|]. cbn [negb app].
  constructor; [|done].
  rewrite elem_of_numberReasons. intros (f & _ & _ & Heq).
  by apply dateError_numberError in Heq.
Qed.

Lemma rowReasons_length row n :
  List.length (rowReasons row n) = failingChecks row.
Proof.
  unfold rowReasons, dateReasons, failingChecks.
  rewrite length_app, numberReasons_length.
  by destruct (isValidDate row).
Qed.

Lemma dateError_in_rowReasons row n :
  dateError n ∈ rowReasons row n ↔ isValidDate row = false.
Proof.
  unfold rowReasons, dateReasons. rewrite elem_of_app, elem_of_numberReasons.
  destruct (isValidDate row); cbn [negb]; split.
  - intros [Hd|(f & _ & _ & Heq)]; [by apply elem_of_nil in Hd|].
    by apply dateError_numberError in Heq.
  - done.
  - done.
  - intros _. left. by apply list_elem_of_singleton.
Qed.

Lemma numberError_in_rowReasons row n f :
  f ∈ numericFields →
  numberError f n ∈ rowReasons row n ↔ invalidNumber (row !! f) = true.
Proof.
  intros Hf.
  unfold rowReasons, dateReasons. rewrite elem_of_app, elem_of_numberReasons.
  split.
  - intros [Hd|(g & _ & Hinv & Heq)].
    + destruct (isValidDate row); cbn [negb] in Hd.
      * by apply elem_of_nil in Hd.
      * apply list_elem_of_singleton in Hd. symmetry in Hd.
        by apply dateError_numberError in Hd.
    + apply numberError_inj_field in Heq. by subst g.
  - intros Hinv. right. by exists f.
Qed.

Lemma accepted_spec row :
  accepted row ↔
  isValidDate row = true ∧
  ∀ field, field ∈ numericFields → invalidNumber (row !! field) = false.
Proof.
  unfold accepted. rewrite andb_true_iff, forallb_forall.
  split; intros [Hd Hn]; (split; [done|]); intros f Hf.
  - apply list_elem_of_In, Hn in Hf. by apply negb_true_iff.
  - apply negb_true_iff, Hn. by apply list_elem_of_In.
Qed.

Lemma accepted_rowReasons row n : accepted row ↔ rowReasons row n = [].
Proof.
  rewrite accepted_spec. unfold rowReasons, dateReasons. split.
  - intros [Hd Hn]. rewrite Hd. cbn [negb app].
    destruct (numberReasons row n numericFields) as [|x rs] eqn:Hrs; [done|].
    assert (x ∈ numberReasons row n numericFields) as Hx
      by (rewrite Hrs; by left).
    apply elem_of_numberReasons in Hx as (f & Hf & Hinv & _).
    rewrite Hn in Hinv; done.
  - intros [Hd Hn]%app_eq_nil.
    split; [by destruct (isValidDate row)|].
    intros f Hf. destruct (invalidNumber (row !! f)) eqn:Hinv; [|done].
    assert (numberError f n ∈ numberReasons row n numericFields) as Hx
      by (apply elem_of_numberReasons; by exists f).
    rewrite Hn in Hx. by apply elem_of_nil in Hx.
Qed.

(** The reasons of a row depend on its date and numeric columns only. *)
Lemma rowReasons_agree row row' n :
  (∀ field, field ∈ "Date" :: numericFields → row !! field = row' !! field) →
  rowReasons row n = rowReasons row' n.
Proof.
  intros Hag. unfold rowReasons, dateReasons, isValidDate.
  rewrite (Hag "Date") by (by left). f_equal.
  assert (∀ field, field ∈ numericFields → row !! field = row' !! field)
    as Hnum by (intros f Hf; apply Hag; by right).
  revert Hnum. unfold numberReasons. generalize numericFields as fields.
  induction fields as [|f fields IHf]; intros Hnum; [done|].
  cbn [flat_map]. rewrite (Hnum f) by (by left).
  f_equal. apply IHf. intros g Hg. apply Hnum. by right.
Qed.

Lemma validated_columns_other field :
  field ∈ "Date" :: numericFields → field ≠ "Symbol" ∧ field ≠ "Series".
Proof.
  revert field. apply Forall_forall.
  apply (bool_decide_unpack _). by vm_compute.
Qed.

End Reasons.

(** ** The reason set *)

Section ReasonSet.

Implicit Types (l rs fr : list string) (x y : string).

Lemma Set_has_true fr x : JS.Set_has fr x = true ↔ x ∈ fr.
Proof. unfold JS.Set_has. apply bool_decide_eq_true. Qed.

Lemma Set_add_elem fr x : x ∈ fr → JS.Set_add fr x = fr.
Proof.
  intros Hx. unfold JS.Set_add.
  by rewrite (proj2 (Set_has_true fr x) Hx).
Qed.

Lemma Set_add_fresh fr x : x ∉ fr → JS.Set_add fr x = (fr ++ [x])%list.
Proof.
  intros Hx. unfold JS.Set_add.
  destruct (JS.Set_has fr x) eqn:Hh; [|done].
  by apply Set_has_true in Hh.
Qed.

Lemma elem_of_Set_add fr x y : y ∈ JS.Set_add fr x ↔ y ∈ fr ∨ y = x.
Proof.
  destruct (decide (x ∈ fr)) as [Hx|Hx].
  - rewrite Set_add_elem by done. split; [by left|]. by intros [?| ->].
  - rewrite Set_add_fresh by done.
    by rewrite elem_of_app, list_elem_of_singleton.
Qed.

Lemma elem_of_fold_Set_add rs fr y :
  y ∈ fold_left JS.Set_add rs fr ↔ y ∈ fr ∨ y ∈ rs.
Proof.
  revert fr. induction rs as [|r rs IHrs]; intros fr; cbn [fold_left].
  - split; [by left|]. intros [?|Hn]; [done|]. by apply elem_of_nil in Hn.
  - rewrite IHrs, elem_of_Set_add, elem_of_cons. tauto.
Qed.

Lemma fold_Set_add_fresh rs fr :
  NoDup rs → (∀ r, r ∈ rs → r ∉ fr) →
  fold_left JS.Set_add rs fr = (fr ++ rs)%list.
Proof.
  intros Hnd. revert fr.
  induction Hnd as [|r rs Hr Hnd IHnd]; intros fr Hfresh; cbn [fold_left].
  - by rewrite app_nil_r.
  - rewrite Set_add_fresh by (apply Hfresh; by left).
    rewrite IHnd.
    + by rewrite <- app_assoc.
    + intros r' Hr'. rewrite elem_of_app, list_elem_of_singleton.
      intros [Hin| ->]; [|done].
      revert Hin. apply Hfresh. by right.
Qed.

Lemma firstOccurrences_elem l x : x ∈ firstOccurrences l ↔ x ∈ l.
Proof.
  induction l as [|a l IHl]; cbn [firstOccurrences]; [done|].
  rewrite !elem_of_cons, list_elem_of_In, filter_In, <- list_elem_of_In, IHl.
  rewrite negb_true_iff, bool_decide_eq_false.
  destruct (decide (x = a)); tauto.
Qed.

Lemma firstOccurrences_snoc l x :
  firstOccurrences (l ++ [x]) = JS.Set_add (firstOccurrences l) x.
Proof.
  induction l as [|a l IHl].
  - done.
  - cbn [app firstOccurrences]. rewrite IHl.
    destruct (decide (x ∈ firstOccurrences l)) as [Hx|Hx].
    + rewrite (Set_add_elem _ _ Hx). symmetry. apply Set_add_elem.
      destruct (decide (x = a)) as [->|Hne]; [by left|]. right.
      rewrite list_elem_of_In, filter_In, <- list_elem_of_In.
      split; [done|]. by rewrite negb_true_iff, bool_decide_eq_false.
    + rewrite (Set_add_fresh _ _ Hx), List.filter_app. cbn [List.filter].
      destruct (decide (x = a)) as [->|Hne].
      * rewrite bool_decide_eq_true_2 by done. cbn [negb].
        rewrite app_nil_r. symmetry. apply Set_add_elem. by left.
      * rewrite bool_decide_eq_false_2 by done. cbn [negb].
        symmetry. rewrite Set_add_fresh; [done|].
        rewrite elem_of_cons, list_elem_of_In, filter_In, <- list_elem_of_In.
        tauto.
Qed.

Lemma firstOccurrences_NoDup l : NoDup (firstOccurrences l).
Proof.
  induction l as [|a l IHl]; cbn [firstOccurrences]; [constructor|].
  constructor.
  - rewrite list_elem_of_In, filter_In.
    rewrite negb_true_iff, bool_decide_eq_false. tauto.
  - apply NoDup_ListNoDup, List.NoDup_filter. by apply NoDup_ListNoDup.
Qed.

End ReasonSet.

(** ** The handlers, field by field *)

Section Handlers.

Implicit Types (st : State) (row : gmap string string).

Lemma addErrors_app rs1 rs2 st :
  addErrors (rs1 ++ rs2) st = addErrors rs2 (addErrors rs1 st).
Proof. unfold addErrors. by rewrite fold_left_app. Qed.

Lemma addErrors_fields rs st :
  length_ (addErrors rs st) = length_ st ∧
  numberoffailedrecords (addErrors rs st) = numberoffailedrecords st ∧
  numberofsucceedrecords (addErrors rs st) = numberofsucceedrecords st ∧
  errors (addErrors rs st) = (errors st ++ rs)%list ∧
  failurereasons (addErrors rs st) = fold_left JS.Set_add rs (failurereasons st) ∧
  columns (addErrors rs st) = columns st ∧
  saves (addErrors rs st) = saves st ∧
  settled (addErrors rs st) = settled st ∧
  promise (addErrors rs st) = promise st.
Proof.
  revert st. induction rs as [|r rs IH]; intros st; simpl.
  - by rewrite app_nil_r.
  - destruct (IH (addError r st)) as (-> & -> & -> & -> & -> & -> & -> & -> & ->).
    simpl. by rewrite <- app_assoc.
Qed.

Lemma fold_checkNumber row fields st b :
  fold_left (checkNumber row) fields (st, b) =
  (addErrors (numberReasons row (length_ st) fields) st,
   b || negb (bool_decide (numberReasons row (length_ st) fields = []))).
Proof.
  revert st b. induction fields as [|f fields IH]; intros st b; simpl.
  - by rewrite orb_false_r.
  - destruct (invalidNumber (row !! f)) eqn:Hf; simpl.
    + rewrite IH. simpl. by rewrite orb_true_r.
    + by rewrite IH.
Qed.

(** The handler in terms of the reasons of the row. *)
Lemma onData_reasons row st :
  onData row st =
  match rowReasons row (length_ st + 1) with
  | [] => callSave (newStock row) (countRow st)
  | rs => failRecord (addErrors rs (countRow st))
  end.
Proof.
  unfold onData, rowReasons, dateReasons, checkDate.
  destruct (isValidDate row); simpl negb; cbv iota;
    rewrite fold_checkNumber;
    change (length_ (countRow st)) with (length_ st + 1);
    change (length_ (addError _ (countRow st))) with (length_ st + 1);
    generalize (numberReasons row (length_ st + 1) numericFields) as rs;
    intros rs.
  - by destruct rs.
  - rewrite orb_true_l. simpl app. cbv iota. f_equal.
Qed.

Lemma onData_fields row st :
  length_ (onData row st) = length_ st + 1 ∧
  errors (onData row st) =
    (errors st ++ rowReasons row (length_ st + 1))%list ∧
  failurereasons (onData row st) =
    fold_left JS.Set_add (rowReasons row (length_ st + 1)) (failurereasons st) ∧
  numberoffailedrecords (onData row st) =
    numberoffailedrecords st +
    (if bool_decide (rowReasons row (length_ st + 1) = []) then 0 else 1) ∧
  numberofsucceedrecords (onData row st) = numberofsucceedrecords st ∧
  saves (onData row st) =
    (if bool_decide (rowReasons row (length_ st + 1) = [])
     then <[ length_ st + 1 := newStock row ]> (saves st) else saves st) ∧
  settled (onData row st) = settled st.
Proof.
  rewrite onData_reasons.
  destruct (rowReasons row (length_ st + 1)) as [|r rs].
  - cbn. rewrite app_nil_r. repeat split; lia.
  - destruct (addErrors_fields (r :: rs) (countRow st))
      as (Hl & Hf & Hs & He & Hr & _ & Hsv & Hst & _).
    unfold failRecord.
    cbn [length_ errors failurereasons numberoffailedrecords
         numberofsucceedrecords saves settled].
    rewrite Hl, Hf, Hs, He, Hr, Hsv, Hst.
    rewrite bool_decide_eq_false_2 by done.
    done.
Qed.

Lemma onData_promise row st : promise (onData row st) = promise st.
Proof.
  rewrite onData_reasons.
  destruct (rowReasons _ _) as [|r rs]; [done|].
  change (promise (addErrors (r :: rs) (countRow st)) = promise st).
  by destruct (addErrors_fields (r :: rs) (countRow st)) as (_&_&_&_&_&_&_&_&->).
Qed.

Lemma onData_columns row st : columns (onData row st) = columns st.
Proof.
  rewrite onData_reasons.
  destruct (rowReasons _ _) as [|r rs]; [done|].
  change (columns (addErrors (r :: rs) (countRow st)) = columns st).
  by destruct (addErrors_fields (r :: rs) (countRow st)) as (_&_&_&_&_&->&_).
Qed.

Lemma onSaveSettled_promise i r st :
  promise (onSaveSettled i r st) = promise st.
Proof.
  unfold onSaveSettled.
  destruct (saves st !! i), (settled st !! i); try done.
  by destruct r.
Qed.

Lemma onSaveSettled_columns i r st :
  columns (onSaveSettled i r st) = columns st.
Proof.
  unfold onSaveSettled.
  destruct (saves st !! i), (settled st !! i); try done.
  by destruct r.
Qed.

Lemma onHeaders_columns headers st :
  columns (onHeaders headers st) =
  columns st ∪ list_to_set (JS.trim <$> headers).
Proof.
  unfold onHeaders; simpl. generalize (columns st) as c.
  induction headers as [|h hs IHhs]; intros c; simpl.
  - by rewrite (right_id_L ∅ (∪)).
  - rewrite IHhs. by rewrite <- (assoc_L (∪)).
Qed.

Lemma settle_promise o st :
  promise (settle o st) = Some (default o (promise st)).
Proof. unfold settle. by destruct (promise st) eqn:E; simpl; rewrite ?E. Qed.

Lemma onEnd_settles st : is_Some (promise (onEnd st)).
Proof.
  unfold onEnd.
  destruct (0 <? _)%Z; [|destruct (0 <? _)%Z]; rewrite settle_promise; eauto.
Qed.

Lemma step_settled st ev o :
  promise st = Some o → promise (step st ev) = Some o.
Proof.
  intros H. destruct ev; cbn [step].
  - done.
  - by rewrite onData_promise.
  - by rewrite onSaveSettled_promise.
  - unfold onEnd.
    destruct (0 <? _)%Z; [|destruct (0 <? _)%Z];
      rewrite settle_promise; simpl; by rewrite H.
  - unfold onError. by rewrite settle_promise, H.
Qed.

Lemma run_settled evs st o :
  promise st = Some o → promise (fold_left step evs st) = Some o.
Proof.
  revert st. induction evs as [|ev evs IH]; intros st H; simpl; [done|].
  apply IH. by apply step_settled.
Qed.

Lemma streaming_promise evs st :
  streaming evs = true →
  promise (fold_left step evs st) = promise st.
Proof.
  revert st. induction evs as [|ev evs IH]; intros st H; [done|].
  cbn [streaming forallb] in H. apply andb_true_iff in H as [Hev H].
  cbn [fold_left]. rewrite IH by done.
  destruct ev; cbn [step]; try done.
  - apply onData_promise.
  - apply onSaveSettled_promise.
Qed.

Lemma streaming_columns evs st :
  streaming evs = true →
  columns (fold_left step evs st) = columns st ∪ observedHeaders evs.
Proof.
  revert st. induction evs as [|ev evs IHevs]; intros st Hs.
  - cbn [fold_left observedHeaders]. by rewrite (right_id_L ∅ (∪)).
  - cbn [streaming forallb] in Hs. apply andb_true_iff in Hs as [Hev Hs].
    cbn [fold_left]. rewrite IHevs by done.
    destruct ev; cbn [step observedHeaders]; try done.
    + rewrite onHeaders_columns. by rewrite <- (assoc_L (∪)).
    + by rewrite onData_columns.
    + by rewrite onSaveSettled_columns.
Qed.

End Handlers.

(** ** The invariant of the shared variables *)

Section Invariant.

Implicit Types (st : State) (row : gmap string string).

Lemma diverge_app s t u v : diverge s t = true → s +:+ u ≠ t +:+ v.
Proof.
  revert t. induction s as [|a s IHs]; intros [|b t] Hd; try done.
  cbn [diverge] in Hd. rewrite !string_app_cons. intros [= Hab Heq].
  subst b. rewrite Ascii.eqb_refl in Hd. by apply IHs in Hd.
Qed.

Lemma numericFields_diverge f g :
  f ∈ numericFields → g ∈ numericFields → f ≠ g →
  diverge (f +:+ "'") (g +:+ "'") = true.
Proof.
  intros Hf Hg Hne.
  assert (forallb (fun f => forallb (fun g =>
            String.eqb f g || diverge (f +:+ "'") (g +:+ "'"))
            numericFields) numericFields = true) as Hall by (by vm_compute).
  rewrite forallb_forall in Hall.
  apply list_elem_of_In, Hall in Hf. rewrite forallb_forall in Hf.
  apply list_elem_of_In, Hf in Hg.
  apply orb_true_iff in Hg as [Heq|Hd]; [|done].
  by apply String.eqb_eq in Heq.
Qed.

Lemma numberError_inj f g n m :
  f ∈ numericFields → g ∈ numericFields →
  numberError f n = numberError g m → f = g ∧ n = m.
Proof.
  intros Hf Hg Heq. unfold numberError in Heq.
  apply (inj (String.append _)) in Heq.
  destruct (decide (f = g)) as [->|Hne].
  - split; [done|].
    apply (inj (String.append _)) in Heq.
    apply (inj (String.append _)) in Heq.
    by apply (inj pretty) in Heq.
  - exfalso.
    change ("' in row " +:+ JS.NumberToString n)
      with ("'" +:+ (" in row " +:+ JS.NumberToString n)) in Heq.
    change ("' in row " +:+ JS.NumberToString m)
      with ("'" +:+ (" in row " +:+ JS.NumberToString m)) in Heq.
    rewrite <- (string_app_assoc f "'"), <- (string_app_assoc g "'") in Heq.
    revert Heq. apply diverge_app. by apply numericFields_diverge.
Qed.

Lemma knownReason_mono b b' x : (b ≤ b')%Z → knownReason b x → knownReason b' x.
Proof.
  intros Hb [Hs|(m & Hm & Hx)]; [by left|].
  right. exists m. split; [lia|done].
Qed.

Lemma rowReasons_known row n x :
  (1 ≤ n)%Z → x ∈ rowReasons row n → knownReason n x.
Proof.
  intros Hn. unfold rowReasons, dateReasons.
  rewrite elem_of_app, elem_of_numberReasons.
  intros [Hd|(f & Hf & _ & ->)]; right; exists n; (split; [lia|]).
  - destruct (isValidDate row); cbn [negb] in Hd.
    + by apply elem_of_nil in Hd.
    + apply list_elem_of_singleton in Hd. by left.
  - right. by exists f.
Qed.

(** The reasons of the next row are not in the set yet. *)
Lemma rowReasons_fresh row st x :
  consistent st →
  x ∈ rowReasons row (length_ st + 1) → x ∉ failurereasons st.
Proof.
  intros (Hlen & _ & Hknown) Hx Hin.
  apply Hknown in Hin.
  revert Hx. unfold rowReasons, dateReasons.
  rewrite elem_of_app, elem_of_numberReasons.
  intros [Hd|(f & Hf & _ & ->)].
  - destruct (isValidDate row); cbn [negb] in Hd;
      [by apply elem_of_nil in Hd|].
    apply list_elem_of_singleton in Hd. subst x.
    destruct Hin as [(m & msg & Heq)|(m & Hm & [Heq|(g & _ & Heq)])].
    + by apply dateError_saveError in Heq.
    + apply dateError_inj in Heq. lia.
    + by apply dateError_numberError in Heq.
  - destruct Hin as [(m & msg & Heq)|(m & Hm & [Heq|(g & Hg & Heq)])].
    + by apply numberError_saveError in Heq.
    + symmetry in Heq. by apply dateError_numberError in Heq.
    + apply numberError_inj in Heq as [_ Heq]; [lia|done..].
Qed.

Lemma addError_consistent e st :
  consistent st → knownReason (length_ st) e → consistent (addError e st).
Proof.
  intros (Hlen & Hfo & Hknown) He. unfold consistent, addError.
  cbn [length_ failurereasons errors].
  split; [done|]. split.
  - by rewrite firstOccurrences_snoc, Hfo.
  - intros x. rewrite elem_of_Set_add. intros [Hx| ->]; auto.
Qed.

Lemma addErrors_consistent rs st :
  consistent st → (∀ x, x ∈ rs → knownReason (length_ st) x) →
  consistent (addErrors rs st).
Proof.
  revert st. induction rs as [|r rs IHrs]; intros st Hc Hrs; [done|].
  cbn [addErrors fold_left]. apply IHrs.
  - apply addError_consistent; [done|]. apply Hrs. by left.
  - intros x Hx. apply Hrs. by right.
Qed.

Lemma countRow_consistent st : consistent st → consistent (countRow st).
Proof.
  intros (Hlen & Hfo & Hknown). unfold consistent, countRow.
  cbn [length_ failurereasons errors].
  split; [lia|]. split; [done|].
  intros x Hx. apply (knownReason_mono (length_ st)); [lia|auto].
Qed.

Lemma onData_consistent row st : consistent st → consistent (onData row st).
Proof.
  intros Hc. rewrite onData_reasons.
  pose proof (rowReasons_known row (length_ st + 1)) as Hk.
  destruct (rowReasons row (length_ st + 1)) as [|r rs].
  - by apply countRow_consistent.
  - apply (addErrors_consistent (r :: rs)).
    + by apply countRow_consistent.
    + intros x Hx. apply Hk; [|done]. destruct Hc as [Hlen _]. lia.
Qed.

Lemma onSaveSettled_consistent i r st :
  consistent st → consistent (onSaveSettled i r st).
Proof.
  intros Hc. unfold onSaveSettled.
  destruct (saves st !! i), (settled st !! i); try done.
  destruct r as [|message]; [done|].
  apply (addError_consistent _
           {| length_ := length_ st;
              numberoffailedrecords := numberoffailedrecords st;
              numberofsucceedrecords := numberofsucceedrecords st;
              failurereasons := failurereasons st;
              errors := errors st;
              columns := columns st;
              saves := saves st;
              settled := <[ i := Stock.Failed message ]> (settled st);
              promise := promise st |}); [done|].
  left. by eexists _, _.
Qed.

Lemma settle_consistent o st : consistent st → consistent (settle o st).
Proof. intros Hc. unfold settle. by destruct (promise st). Qed.

Lemma step_consistent st ev : consistent st → consistent (step st ev).
Proof.
  intros Hc. destruct ev; cbn [step].
  - done.
  - by apply onData_consistent.
  - by apply onSaveSettled_consistent.
  - unfold onEnd.
    destruct (0 <? _)%Z; [|destruct (0 <? _)%Z]; by apply settle_consistent.
  - by apply settle_consistent.
Qed.

Lemma run_consistent evs : consistent (run evs).
Proof.
  unfold run.
  assert (consistent initial) as Hi.
  { split; [done|]. split; [done|]. intros x Hx. by apply elem_of_nil in Hx. }
  revert Hi. generalize initial as st.
  induction evs as [|ev evs IHevs]; intros st Hc; [done|].
  cbn [fold_left]. by apply IHevs, step_consistent.
Qed.

End Invariant.

(** ** Runs *)

Section Runs.

Implicit Types (st : State) (evs : list Event).

Lemma run_app evs ev evs' :
  run (evs ++ ev :: evs') = fold_left step evs' (step (run evs) ev).
Proof. unfold run. by rewrite fold_left_app. Qed.

Lemma run_streaming_promise evs :
  streaming evs = true → promise (run evs) = None.
Proof. intros Hs. unfold run. by rewrite streaming_promise. Qed.

Lemma run_streaming_columns evs :
  streaming evs = true → columns (run evs) = observedHeaders evs.
Proof.
  intros Hs. unfold run. rewrite streaming_columns by done.
  apply (left_id_L ∅ (∪)).
Qed.

(** What ['end'] settles a pending promise with. *)
Lemma onEnd_pending st :
  promise st = None →
  promise (onEnd st) =
  Some match missingColumns (columns st), errors st with
       | _ :: _, _ =>
           RejectError ("Missing columns: " +:+
                        JS.join ", " (missingColumns (columns st)))
       | [], _ :: _ =>
           RejectReport "Validation errors found"
             (length_ st) (numberoffailedrecords st)
             (length_ st - numberoffailedrecords st) (failurereasons st)
       | [], [] =>
           Resolve "File validated successfully"
             (length_ st) (numberoffailedrecords st)
             (length_ st - numberoffailedrecords st)
       end.
Proof.
  intros Hp. unfold onEnd.
  destruct (missingColumns (columns st)) as [|c cs]; cbn [List.length].
  - change (0 <? Z.of_nat 0)%Z with false. cbv iota. cbn [errors].
    destruct (errors st) as [|e es]; cbn [List.length].
    + change (0 <? Z.of_nat 0)%Z with false. cbv iota.
      rewrite settle_promise. cbn [promise]. by rewrite Hp.
    + replace (0 <? Z.of_nat (S (List.length es)))%Z with true
        by (symmetry; apply Z.ltb_lt; lia).
      rewrite settle_promise. cbn [promise]. by rewrite Hp.
  - replace (0 <? Z.of_nat (S (List.length cs)))%Z with true
      by (symmetry; apply Z.ltb_lt; lia).
    rewrite settle_promise. by rewrite Hp.
Qed.

(** The outcome of a run whose stream ends after [evs]; whatever is
    delivered afterwards leaves it as it is. *)
Lemma outcome_at_end evs evs' :
  streaming evs = true →
  validateCSVAndStoreCSV (evs ++ EvEnd :: evs') = promise (onEnd (run evs)).
Proof.
  intros Hs. unfold validateCSVAndStoreCSV. rewrite run_app.
  cbn [step]. destruct (onEnd_settles (run evs)) as [o Ho].
  rewrite Ho. by apply run_settled.
Qed.

Lemma run_snoc evs ev : run (evs ++ [ev]) = step (run evs) ev.
Proof. by rewrite run_app. Qed.

(** A settled promise was settled by one event, on a pending promise. *)
Lemma outcome_origin evs o :
  validateCSVAndStoreCSV evs = Some o →
  ∃ evs0 ev evs1,
    evs = (evs0 ++ ev :: evs1)%list ∧
    promise (run evs0) = None ∧
    promise (step (run evs0) ev) = Some o.
Proof.
  unfold validateCSVAndStoreCSV.
  induction evs as [|ev evs IHevs] using rev_ind; [done|].
  rewrite run_snoc. intros Ho.
  destruct (promise (run evs)) as [o'|] eqn:Hp.
  - rewrite (step_settled _ _ _ Hp) in Ho. injection Ho as ->.
    destruct (IHevs eq_refl) as (evs0 & ev0 & evs1 & -> & Hp0 & Ho0).
    exists evs0, ev0, (evs1 ++ [ev])%list.
    by rewrite <- app_assoc.
  - by exists evs, ev, [].
Qed.

(** Only ['end'] settles the promise with a validation failure report. *)
Lemma report_origin evs e t f s rs :
  validateCSVAndStoreCSV evs = Some (RejectReport e t f s rs) →
  ∃ evs0 evs1,
    evs = (evs0 ++ EvEnd :: evs1)%list ∧
    e = "Validation errors found" ∧
    t = length_ (run evs0) ∧
    f = numberoffailedrecords (run evs0) ∧
    s = length_ (run evs0) - numberoffailedrecords (run evs0) ∧
    rs = failurereasons (run evs0).
Proof.
  intros Ho. apply outcome_origin in Ho as (evs0 & ev & evs1 & -> & Hp & Ho).
  destruct ev; cbn [step] in Ho.
  - cbn [onHeaders promise] in Ho. congruence.
  - rewrite onData_promise in Ho. congruence.
  - rewrite onSaveSettled_promise in Ho. congruence.
  - exists evs0, evs1. split; [done|].
    rewrite onEnd_pending in Ho by done.
    destruct (missingColumns _), (errors (run evs0)); by simplify_eq.
  - unfold onError in Ho. rewrite settle_promise, Hp in Ho. by simplify_eq.
Qed.

End Runs.

(** ** Properties of the pipeline *)

(** C1. When the stream ends under a header that holds the 15 required
    columns, the promise settles with a success report or a validation
    failure report whose counts are [length], [numberoffailedrecords] and
    [length - numberoffailedrecords] as they stand at the end of the stream:
    [successfulRecords] is recomputed, the running [numberofsucceedrecords]
    is not used, and [successfulRecords + failedRecords = totalRecords]. Later
    events do not change the report. *)
Theorem report_counts_reconciled (evs evs' : list Event) :
  streaming evs = true →
  missingColumns (observedHeaders evs) = [] →
  ∃ o, validateCSVAndStoreCSV (evs ++ EvEnd :: evs') = Some o ∧
       (o = Resolve "File validated successfully"
              (length_ (run evs)) (numberoffailedrecords (run evs))
              (length_ (run evs) - numberoffailedrecords (run evs))
        ∨ o = RejectReport "Validation errors found"
              (length_ (run evs)) (numberoffailedrecords (run evs))
              (length_ (run evs) - numberoffailedrecords (run evs))
              (failurereasons (run evs))) ∧
       match o with
       | Resolve _ totalRecords failedRecords successfulRecords
       | RejectReport _ totalRecords failedRecords successfulRecords _ =>
           successfulRecords + failedRecords = totalRecords
       | _ => False
       end.
Proof.
  intros Hs Hm.
  rewrite outcome_at_end by done.
  rewrite onEnd_pending by (by apply run_streaming_promise).
  rewrite run_streaming_columns by done. rewrite Hm.
  destruct (errors (run evs)); eexists; (split; [reflexivity|]);
    (split; [by auto|]); cbv beta iota; lia.
Qed.

Lemma report_counts_reconciled_witness :
  streaming [EvHeaders REQUIRED_COLUMNS; EvData validRow] = true ∧
  missingColumns (observedHeaders [EvHeaders REQUIRED_COLUMNS; EvData validRow]) = [] ∧
  numberofsucceedrecords (run [EvHeaders REQUIRED_COLUMNS; EvData validRow]) = 0 ∧
  ∃ o, validateCSVAndStoreCSV
         ([EvHeaders REQUIRED_COLUMNS; EvData validRow] ++
          EvEnd :: [EvSaveSettled 1 Stock.Saved]) = Some o ∧
       (o = Resolve "File validated successfully" 1 0 1
        ∨ o = RejectReport "Validation errors found" 1 0 1 []) ∧
       match o with
       | Resolve _ totalRecords failedRecords successfulRecords
       | RejectReport _ totalRecords failedRecords successfulRecords _ =>
           successfulRecords + failedRecords = totalRecords
       | _ => False
       end.
Proof.
  split; [by vm_compute|]. split; [by vm_compute|]. split; [by vm_compute|].
  exact (report_counts_reconciled
           [EvHeaders REQUIRED_COLUMNS; EvData validRow]
           [EvSaveSettled 1 Stock.Saved] eq_refl eq_refl).
Defined.

(** C2. When the trimmed header names seen before the stream ends lack a
    required column, the promise is rejected with the error
    ["Missing columns: "] followed by the missing names joined by [", "].
    The outcome is fixed by the ['headers'] events alone: it carries no
    count and no reason, whatever rows were read and saved, and later events
    do not change it. *)
Theorem missing_columns_supersede (evs evs' : list Event) :
  streaming evs = true →
  missingColumns (observedHeaders evs) ≠ [] →
  validateCSVAndStoreCSV (evs ++ EvEnd :: evs') =
  Some (RejectError ("Missing columns: " +:+
                     JS.join ", " (missingColumns (observedHeaders evs)))).
Proof.
  intros Hs Hm.
  rewrite outcome_at_end by done.
  rewrite onEnd_pending by (by apply run_streaming_promise).
  rewrite run_streaming_columns by done.
  by destruct (missingColumns (observedHeaders evs)).
Qed.

Lemma missing_columns_supersede_witness :
  streaming [EvHeaders (List.filter (fun c => negb (String.eqb c "Series"))
                                    REQUIRED_COLUMNS);
             EvData (delete "Series" validRow);
             EvSaveSettled 1 Stock.Saved] = true ∧
  missingColumns
    (observedHeaders
       [EvHeaders (List.filter (fun c => negb (String.eqb c "Series"))
                               REQUIRED_COLUMNS);
        EvData (delete "Series" validRow);
        EvSaveSettled 1 Stock.Saved]) ≠ [] ∧
  validateCSVAndStoreCSV
    ([EvHeaders (List.filter (fun c => negb (String.eqb c "Series"))
                             REQUIRED_COLUMNS);
      EvData (delete "Series" validRow);
      EvSaveSettled 1 Stock.Saved] ++ EvEnd :: []) =
  Some (RejectError "Missing columns: Series").
Proof.
  split; [by vm_compute|]. split; [by vm_compute|].
  rewrite (missing_columns_supersede
             [EvHeaders (List.filter (fun c => negb (String.eqb c "Series"))
                                     REQUIRED_COLUMNS);
              EvData (delete "Series" validRow);
              EvSaveSettled 1 Stock.Saved] []);
    [by vm_compute | by vm_compute | by vm_compute].
Defined.

(** C3 (amended). A numeric field passes the check exactly when
    [parseFloat] of the raw value is not [NaN] and the value is not the empty
    string, that is, exactly when the raw string begins, after leading white
    space and an optional sign, with a decimal digit, with [.] and a digit, or
    with [Infinity]. When the field of the row handled as row [n] fails, the
    reason ["Invalid number in field '{field}' in row {n}"] is among the
    reasons the handler adds, once; when it passes, the reason is not added. *)
Theorem numeric_field_check (row : gmap string string) (st : State)
    (field : string) :
  field ∈ numericFields →
  (invalidNumber (row !! field) = false ↔
   startsDecimalLiteral (JS.ToString (row !! field)) = true) ∧
  ∃ added,
    errors (onData row st) = (errors st ++ added)%list ∧
    NoDup added ∧
    (numberError field (length_ st + 1) ∈ added ↔
     invalidNumber (row !! field) = true).
Proof.
  intros Hf. split.
  - rewrite invalidNumber_starts. by destruct (startsDecimalLiteral _).
  - exists (rowReasons row (length_ st + 1)).
    destruct (onData_fields row st) as (_ & -> & _).
    split; [done|]. split; [apply rowReasons_NoDup|].
    by apply numberError_in_rowReasons.
Qed.

Lemma numeric_field_check_witness :
  "Prev Close" ∈ numericFields ∧
  invalidNumber (invalidRow !! "Prev Close") = true ∧
  errors (onData invalidRow initial) =
    [ "Invalid date format in row 1";
      "Invalid number in field 'Prev Close' in row 1" ] ∧
  ((invalidNumber (invalidRow !! "Prev Close") = false ↔
    startsDecimalLiteral (JS.ToString (invalidRow !! "Prev Close")) = true) ∧
   ∃ added,
     errors (onData invalidRow initial) = (errors initial ++ added)%list ∧
     NoDup added ∧
     (numberError "Prev Close" (length_ initial + 1) ∈ added ↔
      invalidNumber (invalidRow !! "Prev Close") = true)).
Proof.
  assert ("Prev Close" ∈ numericFields) as Hin
    by (apply (bool_decide_unpack _); by vm_compute).
  split; [exact Hin|]. split; [by vm_compute|]. split; [by vm_compute|].
  exact (numeric_field_check invalidRow initial "Prev Close" Hin).
Defined.

(** C3 with "parses as a finite decimal" does not hold: the value
    [Infinity] in the column [Open] passes the check of the code, and the
    row is handed to the sink with no reason recorded, although [Infinity]
    is not a finite decimal. *)
Lemma numeric_field_check_counterexample :
  "Open" ∈ numericFields ∧
  invalidNumber (<[ "Open" := "Infinity" ]> validRow !! "Open") = false ∧
  errors (onData (<[ "Open" := "Infinity" ]> validRow) initial) = [] ∧
  JS.parseFloat (<[ "Open" := "Infinity" ]> validRow !! "Open") =
    JS.Infinity false ∧
  specAcceptsNumber "Open" (<[ "Open" := "Infinity" ]> validRow !! "Open") =
    false.
Proof.
  split; [apply (bool_decide_unpack _); by vm_compute|].
  repeat split; by vm_compute.
Qed.

(** The count fields are checked like the others: a fractional [Volume]
    passes, and [parseInt] stores its integer part. *)
Example fractional_volume_accepted :
  invalidNumber (<[ "Volume" := "1.5" ]> validRow !! "Volume") = false ∧
  specAcceptsNumber "Volume" (<[ "Volume" := "1.5" ]> validRow !! "Volume") =
    false ∧
  Stock.volume (newStock (<[ "Volume" := "1.5" ]> validRow)) =
    JS.Decimal false 1 0.
Proof. repeat split; by vm_compute. Qed.

(** Text after a numeric prefix is ignored by the check. *)
Example trailing_text_accepted :
  invalidNumber (Some "12abc") = false ∧
  JS.parseFloat (Some "12abc") = JS.Decimal false 12 0.
Proof. split; by vm_compute. Qed.

(** C4. The handler runs the date check and the twelve numeric checks of a
    row whatever the other checks give: the reasons the row adds, to the
    array of errors and to the reason set alike, are one distinct string per
    failing check, the date reason being among them exactly when the date
    check fails and the reason of a field exactly when that field fails; and
    a row with a failing check raises the failed count by one, however many
    checks fail. *)
Theorem row_checks_independent (evs : list Event) (row : gmap string string) :
  ∃ added,
    errors (run (evs ++ [EvData row])) = (errors (run evs) ++ added)%list ∧
    failurereasons (run (evs ++ [EvData row])) =
      (failurereasons (run evs) ++ added)%list ∧
    List.length added = failingChecks row ∧
    NoDup added ∧
    (dateError (length_ (run evs) + 1) ∈ added ↔ isValidDate row = false) ∧
    (∀ field, field ∈ numericFields →
       numberError field (length_ (run evs) + 1) ∈ added ↔
       invalidNumber (row !! field) = true) ∧
    numberoffailedrecords (run (evs ++ [EvData row])) =
      numberoffailedrecords (run evs) +
      (if bool_decide (failingChecks row = 0%nat) then 0 else 1).
Proof.
  rewrite run_snoc. cbn [step].
  exists (rowReasons row (length_ (run evs) + 1)).
  destruct (onData_fields row (run evs)) as (_ & -> & -> & -> & _).
  split; [done|]. split.
  { apply fold_Set_add_fresh; [apply rowReasons_NoDup|].
    intros r Hr. by apply (rowReasons_fresh row); [apply run_consistent|]. }
  split; [apply rowReasons_length|].
  split; [apply rowReasons_NoDup|].
  split; [apply dateError_in_rowReasons|].
  split; [intros field Hf; by apply numberError_in_rowReasons|].
  f_equal. rewrite <- (rowReasons_length row (length_ (run evs) + 1)).
  by destruct (rowReasons row (length_ (run evs) + 1)).
Qed.

Lemma row_checks_independent_witness :
  failingChecks invalidRow = 2%nat ∧
  errors (run ([EvHeaders REQUIRED_COLUMNS; EvData validRow] ++
               [EvData invalidRow])) =
    [ "Invalid date format in row 2";
      "Invalid number in field 'Prev Close' in row 2" ] ∧
  numberoffailedrecords
    (run ([EvHeaders REQUIRED_COLUMNS; EvData validRow] ++
          [EvData invalidRow])) = 1 ∧
  ∃ added,
    errors (run ([EvHeaders REQUIRED_COLUMNS; EvData validRow] ++
                 [EvData invalidRow])) =
      (errors (run [EvHeaders REQUIRED_COLUMNS; EvData validRow]) ++ added)%list ∧
    failurereasons (run ([EvHeaders REQUIRED_COLUMNS; EvData validRow] ++
                         [EvData invalidRow])) =
      (failurereasons (run [EvHeaders REQUIRED_COLUMNS; EvData validRow]) ++
       added)%list ∧
    List.length added = failingChecks invalidRow ∧
    NoDup added ∧
    (dateError (length_ (run [EvHeaders REQUIRED_COLUMNS; EvData validRow]) + 1)
       ∈ added ↔ isValidDate invalidRow = false) ∧
    (∀ field, field ∈ numericFields →
       numberError field
         (length_ (run [EvHeaders REQUIRED_COLUMNS; EvData validRow]) + 1)
         ∈ added ↔
       invalidNumber (invalidRow !! field) = true) ∧
    numberoffailedrecords
      (run ([EvHeaders REQUIRED_COLUMNS; EvData validRow] ++
            [EvData invalidRow])) =
      numberoffailedrecords (run [EvHeaders REQUIRED_COLUMNS; EvData validRow]) +
      (if bool_decide (failingChecks invalidRow = 0%nat) then 0 else 1).
Proof.
  split; [by vm_compute|]. split; [by vm_compute|]. split; [by vm_compute|].
  exact (row_checks_independent
           [EvHeaders REQUIRED_COLUMNS; EvData validRow] invalidRow).
Defined.

(** C5. The [failureReasons] of every validation failure report hold no
    string twice, and are the distinct strings of the array of errors as it
    stands when the stream ends, each at the place of its first occurrence;
    recording a reason that is already in the reason set leaves the set as
    it is. *)
Theorem failure_reasons_deduplicated (evs : list Event)
    (e : string) (t f s : Z) (rs : list string) :
  validateCSVAndStoreCSV evs = Some (RejectReport e t f s rs) →
  NoDup rs ∧
  (∃ evs0 evs1,
     evs = (evs0 ++ EvEnd :: evs1)%list ∧
     rs = firstOccurrences (errors (run evs0))) ∧
  (∀ st x, x ∈ failurereasons st →
           failurereasons (addError x st) = failurereasons st).
Proof.
  intros Ho.
  apply report_origin in Ho as (evs0 & evs1 & -> & _ & _ & _ & _ & ->).
  destruct (run_consistent evs0) as (_ & Hfo & _).
  split; [rewrite Hfo; apply firstOccurrences_NoDup|].
  split; [by exists evs0, evs1|].
  intros st x Hx. cbn [addError failurereasons]. by apply Set_add_elem.
Qed.

Lemma failure_reasons_deduplicated_witness :
  validateCSVAndStoreCSV
    [ EvHeaders REQUIRED_COLUMNS; EvData validRow; EvData validRow;
      EvSaveSettled 1 (Stock.Failed "E"); EvSaveSettled 2 (Stock.Failed "E");
      EvEnd ] =
    Some (RejectReport "Validation errors found" 2 2 0
            [ "Error saving record in row 2: E" ]) ∧
  errors (run [ EvHeaders REQUIRED_COLUMNS; EvData validRow; EvData validRow;
                EvSaveSettled 1 (Stock.Failed "E");
                EvSaveSettled 2 (Stock.Failed "E") ]) =
    [ "Error saving record in row 2: E"; "Error saving record in row 2: E" ] ∧
  NoDup [ "Error saving record in row 2: E" ].
Proof.
  assert (validateCSVAndStoreCSV
            [ EvHeaders REQUIRED_COLUMNS; EvData validRow; EvData validRow;
              EvSaveSettled 1 (Stock.Failed "E");
              EvSaveSettled 2 (Stock.Failed "E"); EvEnd ] =
          Some (RejectReport "Validation errors found" 2 2 0
                  [ "Error saving record in row 2: E" ])) as Ho
    by (by vm_compute).
  split; [exact Ho|]. split; [by vm_compute|].
  exact (proj1 (failure_reasons_deduplicated _ _ _ _ _ _ Ho)).
Defined.

(** C6, at its failing inputs. An empty stream ends with no header seen and
    the promise is rejected with the missing-columns error, and an error of
    the stream is rejected with its own message: neither outcome is the
    ["Validation errors found"] report. A complete header with no row is
    resolved with all counts 0. *)
Theorem degenerate_input_outcome :
  validateCSVAndStoreCSV [EvEnd] =
    Some (RejectError
            "Missing columns: Date, Symbol, Series, Prev Close, Open, High, Low, Last, Close, VWAP, Volume, Turnover, Trades, Deliverable Volume, %Deliverble") ∧
  (∀ message,
     validateCSVAndStoreCSV [EvError message] = Some (RejectStream message)) ∧
  validateCSVAndStoreCSV [EvHeaders REQUIRED_COLUMNS; EvEnd] =
    Some (Resolve "File validated successfully" 0 0 0).
Proof. split; [by vm_compute|]. split; [done|by vm_compute]. Qed.

(** What the continuation of a failed save does: it reads [length] as it is
    when the save settles. *)
Lemma onSaveSettled_failed (i : Z) (message : string) (st : State) :
  is_Some (saves st !! i) → settled st !! i = None →
  errors (onSaveSettled i (Stock.Failed message) st) =
    (errors st ++ [saveError (length_ st) message])%list ∧
  numberoffailedrecords (onSaveSettled i (Stock.Failed message) st) =
    numberoffailedrecords st + 1 ∧
  length_ (onSaveSettled i (Stock.Failed message) st) = length_ st ∧
  promise (onSaveSettled i (Stock.Failed message) st) = promise st.
Proof.
  intros [doc Hdoc] Hnone. unfold onSaveSettled. by rewrite Hdoc, Hnone.
Qed.

(** C7, at its failing input. Two rows are read and the save of row 1 then
    fails: the failed count rises by one and the batch goes on, but the
    reason recorded names row 2, the value of [length] when the save
    settled, and not row 1. *)
Theorem save_failure_row_number :
  validateCSVAndStoreCSV
    [ EvHeaders REQUIRED_COLUMNS; EvData validRow; EvData validRow;
      EvSaveSettled 1 (Stock.Failed "E"); EvSaveSettled 2 Stock.Saved;
      EvEnd ] =
    Some (RejectReport "Validation errors found" 2 1 1
            [ "Error saving record in row 2: E" ]) ∧
  saveError 1 "E" = "Error saving record in row 1: E" ∧
  settled (run [ EvHeaders REQUIRED_COLUMNS; EvData validRow; EvData validRow;
                 EvSaveSettled 1 (Stock.Failed "E");
                 EvSaveSettled 2 Stock.Saved; EvEnd ]) !! 1 =
    Some (Stock.Failed "E").
Proof. repeat split; by vm_compute. Qed.

(** C8, at its failing input. The stream ends while the save of row 1 is in
    flight: the promise is resolved with a success report of one successful
    record, and the failure of that save, which lands afterwards, raises the
    failed count without reaching the report. *)
Theorem report_before_save_settles :
  settled (run [EvHeaders REQUIRED_COLUMNS; EvData validRow; EvEnd]) !! 1 =
    None ∧
  validateCSVAndStoreCSV [EvHeaders REQUIRED_COLUMNS; EvData validRow; EvEnd] =
    Some (Resolve "File validated successfully" 1 0 1) ∧
  validateCSVAndStoreCSV
    [ EvHeaders REQUIRED_COLUMNS; EvData validRow; EvEnd;
      EvSaveSettled 1 (Stock.Failed "E") ] =
    Some (Resolve "File validated successfully" 1 0 1) ∧
  numberoffailedrecords
    (run [ EvHeaders REQUIRED_COLUMNS; EvData validRow; EvEnd;
           EvSaveSettled 1 (Stock.Failed "E") ]) = 1 ∧
  failurereasons
    (run [ EvHeaders REQUIRED_COLUMNS; EvData validRow; EvEnd;
           EvSaveSettled 1 (Stock.Failed "E") ]) =
    [ "Error saving record in row 1: E" ].
Proof. repeat split; by vm_compute. Qed.

(** C9. For an accepted row the document handed to the sink carries, as its
    date, the [YYYY-MM-DD] rendering of the strict parse of the raw date
    under the first layout of [dateFormats] that accepts it; the stored
    string parses back, under the canonical layout, to the same date; and a
    raw date that is valid under [YYYY-MM-DD] is stored as it was written. *)
Theorem stored_date_canonical (row : gmap string string) (st : State) :
  accepted row →
  ∃ doc a pre fmt post,
    saves (onData row st) !! (length_ st + 1) = Some doc ∧
    dateFormats = (pre ++ fmt :: post)%list ∧
    (∀ f, f ∈ pre → Moment.moment (row !! "Date") f = None) ∧
    Moment.moment (row !! "Date") fmt = Some a ∧
    Stock.date doc = Moment.format (Some a) "YYYY-MM-DD" ∧
    Moment.moment (Some (Stock.date doc)) "YYYY-MM-DD" = Some a ∧
    (Moment.isValid (Moment.moment (row !! "Date") "YYYY-MM-DD") = true →
     row !! "Date" = Some (Stock.date doc)).
Proof.
  intros Hacc.
  destruct (isValidDate_momentFormats row
              (proj1 (proj1 (accepted_spec row) Hacc))) as [a Ha].
  pose proof Ha as Hfirst.
  apply momentFormats_first in Hfirst as (pre & fmt & post & Hsplit & Hpre & Hfmt).
  exists (newStock row), a, pre, fmt, post.
  destruct (onData_fields row st) as (_ & _ & _ & _ & _ & -> & _).
  rewrite (proj1 (accepted_rowReasons row (length_ st + 1)) Hacc).
  rewrite bool_decide_eq_true_2 by done. rewrite lookup_insert_eq.
  split; [done|]. split; [done|]. split; [done|]. split; [done|].
  assert (Stock.date (newStock row) = Moment.format (Some a) "YYYY-MM-DD")
    as Hdate by (cbn [newStock Stock.date]; by rewrite Ha).
  split; [done|]. rewrite Hdate. split.
  - assert (fmt ∈ dateFormats) as Hin.
    { rewrite Hsplit. apply elem_of_app. right. by left. }
    destruct (moment_ranges _ _ _ Hin Hfmt) as ((Hy & Hm & Hd) & Hno).
    by apply format_canonical_moment.
  - intros Hvalid.
    destruct (row !! "Date") as [s|] eqn:Hraw; [|by vm_compute in Hvalid].
    destruct (Moment.moment (Some s) "YYYY-MM-DD") as [a'|] eqn:Hc; [|done].
    assert (a' = a) as ->.
    { unfold dateFormats in Ha. cbn [Moment.momentFormats] in Ha.
      rewrite Hc in Ha. congruence. }
    f_equal. symmetry. by apply moment_canonical_format.
Qed.

Lemma stored_date_canonical_witness :
  accepted slashDateRow ∧
  Stock.date <$> saves (onData slashDateRow initial) !! 1 = Some "2024-01-31" ∧
  Stock.date <$> saves (onData validRow initial) !! 1 = validRow !! "Date" ∧
  ∃ doc a pre fmt post,
    saves (onData slashDateRow initial) !! (length_ initial + 1) = Some doc ∧
    dateFormats = (pre ++ fmt :: post)%list ∧
    (∀ f, f ∈ pre → Moment.moment (slashDateRow !! "Date") f = None) ∧
    Moment.moment (slashDateRow !! "Date") fmt = Some a ∧
    Stock.date doc = Moment.format (Some a) "YYYY-MM-DD" ∧
    Moment.moment (Some (Stock.date doc)) "YYYY-MM-DD" = Some a ∧
    (Moment.isValid (Moment.moment (slashDateRow !! "Date") "YYYY-MM-DD") = true →
     slashDateRow !! "Date" = Some (Stock.date doc)).
Proof.
  assert (accepted slashDateRow) as Hacc by (by vm_compute).
  split; [exact Hacc|]. split; [by vm_compute|]. split; [by vm_compute|].
  exact (stored_date_canonical slashDateRow initial Hacc).
Defined.

(** C10. The checks of a row do not read its [Symbol] and [Series]: with
    these two columns set to any values, or removed, the handler records the
    same reasons and counts the same failure; and when the date and the
    twelve numeric fields of the row pass, the row is handed to the sink in a
    document whose symbol and series are the values of the row as they are,
    empty and absent ones included, with no reason recorded and no failure
    counted by the checks. *)
Theorem symbol_series_unchecked (row : gmap string string) (st : State)
    (symbol series : JS.value) :
  (errors (onData (partial_alter (fun _ => symbol) "Symbol"
                     (partial_alter (fun _ => series) "Series" row)) st) =
     errors (onData row st) ∧
   failurereasons (onData (partial_alter (fun _ => symbol) "Symbol"
                     (partial_alter (fun _ => series) "Series" row)) st) =
     failurereasons (onData row st) ∧
   numberoffailedrecords (onData (partial_alter (fun _ => symbol) "Symbol"
                     (partial_alter (fun _ => series) "Series" row)) st) =
     numberoffailedrecords (onData row st)) ∧
  (accepted row →
   errors (onData (partial_alter (fun _ => symbol) "Symbol"
                     (partial_alter (fun _ => series) "Series" row)) st) =
     errors st ∧
   numberoffailedrecords (onData (partial_alter (fun _ => symbol) "Symbol"
                     (partial_alter (fun _ => series) "Series" row)) st) =
     numberoffailedrecords st ∧
   ∃ doc,
     saves (onData (partial_alter (fun _ => symbol) "Symbol"
                      (partial_alter (fun _ => series) "Series" row)) st)
       !! (length_ st + 1) = Some doc ∧
     Stock.symbol doc = symbol ∧
     Stock.series doc = series).
Proof.
  set (row' := partial_alter (fun _ => symbol) "Symbol"
                 (partial_alter (fun _ => series) "Series" row)).
  assert (rowReasons row' (length_ st + 1) = rowReasons row (length_ st + 1))
    as Hsame.
  { apply rowReasons_agree. intros field Hf.
    apply validated_columns_other in Hf as [Hsym Hser]. unfold row'.
    by rewrite !lookup_partial_alter_ne. }
  destruct (onData_fields row' st) as (_ & He' & Hr' & Hf' & _ & Hs' & _).
  destruct (onData_fields row st) as (_ & He & Hr & Hf & _).
  rewrite Hsame in He', Hr', Hf', Hs'.
  split; [by rewrite He', Hr', Hf', He, Hr, Hf|].
  intros Hacc.
  apply (accepted_rowReasons row (length_ st + 1)) in Hacc.
  rewrite Hacc in He', Hf', Hs'.
  rewrite bool_decide_eq_true_2 in Hf', Hs' by done.
  rewrite He', Hf', Hs', app_nil_r, Z.add_0_r, lookup_insert_eq.
  split; [done|]. split; [done|].
  exists (newStock row'). split; [done|].
  unfold row'. cbn [newStock Stock.symbol Stock.series].
  rewrite lookup_partial_alter_eq.
  rewrite lookup_partial_alter_ne by done.
  by rewrite lookup_partial_alter_eq.
Qed.

Lemma symbol_series_unchecked_witness :
  accepted validRow ∧
  partial_alter (fun _ => None) "Symbol"
    (partial_alter (fun _ => Some "") "Series" validRow) !! "Symbol" = None ∧
  errors (onData (partial_alter (fun _ => None) "Symbol"
                    (partial_alter (fun _ => Some "") "Series" validRow))
                 initial) = errors initial ∧
  numberoffailedrecords
    (onData (partial_alter (fun _ => None) "Symbol"
               (partial_alter (fun _ => Some "") "Series" validRow))
            initial) = numberoffailedrecords initial ∧
  ∃ doc,
    saves (onData (partial_alter (fun _ => None) "Symbol"
                     (partial_alter (fun _ => Some "") "Series" validRow))
                  initial) !! (length_ initial + 1) = Some doc ∧
    Stock.symbol doc = None ∧
    Stock.series doc = Some "".
Proof.
  assert (accepted validRow) as Hacc by (by vm_compute).
  split; [exact Hacc|]. split; [by vm_compute|].
  exact (proj2 (symbol_series_unchecked validRow initial None (Some "")) Hacc).
Defined.

(** ** Bookkeeping of the counters and the saves *)

Section Bookkeeping.

Implicit Types (st : State) (row : gmap string string).

Lemma onSaveSettled_cases i r st :
  (is_Some (saves st !! i) ∧ settled st !! i = None ∧
   settled (onSaveSettled i r st) = <[ i := r ]> (settled st) ∧
   saves (onSaveSettled i r st) = saves st ∧
   length_ (onSaveSettled i r st) = length_ st ∧
   match r with
   | Stock.Saved =>
       errors (onSaveSettled i r st) = errors st ∧
       failurereasons (onSaveSettled i r st) = failurereasons st ∧
       numberoffailedrecords (onSaveSettled i r st) = numberoffailedrecords st ∧
       numberofsucceedrecords (onSaveSettled i r st) =
         numberofsucceedrecords st + 1
   | Stock.Failed message =>
       errors (onSaveSettled i r st) =
         (errors st ++ [saveError (length_ st) message])%list ∧
       failurereasons (onSaveSettled i r st) =
         JS.Set_add (failurereasons st) (saveError (length_ st) message) ∧
       numberoffailedrecords (onSaveSettled i r st) =
         numberoffailedrecords st + 1 ∧
       numberofsucceedrecords (onSaveSettled i r st) =
         numberofsucceedrecords st
   end) ∨
  ((saves st !! i = None ∨ is_Some (settled st !! i)) ∧
   onSaveSettled i r st = st).
Proof.
  unfold onSaveSettled.
  destruct (saves st !! i) as [doc|] eqn:Hdoc;
    [destruct (settled st !! i) as [r'|] eqn:Hr|].
  - right. split; [right; eauto|done].
  - left. split; [eauto|]. split; [done|]. by destruct r.
  - right. split; [by left|done].
Qed.

Lemma onEnd_fields st :
  length_ (onEnd st) = length_ st ∧
  numberoffailedrecords (onEnd st) = numberoffailedrecords st ∧
  errors (onEnd st) = errors st ∧
  failurereasons (onEnd st) = failurereasons st ∧
  columns (onEnd st) = columns st ∧
  saves (onEnd st) = saves st ∧
  settled (onEnd st) = settled st.
Proof.
  unfold onEnd, settle.
  destruct (0 <? _)%Z; [|destruct (0 <? _)%Z]; by destruct (promise st).
Qed.

Lemma settle_fields o st :
  length_ (settle o st) = length_ st ∧
  numberoffailedrecords (settle o st) = numberoffailedrecords st ∧
  numberofsucceedrecords (settle o st) = numberofsucceedrecords st ∧
  errors (settle o st) = errors st ∧
  failurereasons (settle o st) = failurereasons st ∧
  columns (settle o st) = columns st ∧
  saves (settle o st) = saves st ∧
  settled (settle o st) = settled st.
Proof. unfold settle. by destruct (promise st). Qed.

Lemma failedSaves_insert i r (m : gmap Z Stock.SaveResult) :
  m !! i = None →
  size (filter (fun kv : Z * Stock.SaveResult => isFailed kv.2 = true)
               (<[ i := r ]> m)) =
  (size (filter (fun kv : Z * Stock.SaveResult => isFailed kv.2 = true) m) +
   (if isFailed r then 1 else 0))%nat.
Proof.
  intros Hi. destruct (isFailed r) eqn:Hr.
  - rewrite map_filter_insert_True by done.
    rewrite map_size_insert_None; [lia|].
    by rewrite map_lookup_filter_None; left.
  - rewrite map_filter_insert_not'; [lia| |].
    + cbn. congruence.
    + intros y Hy. congruence.
Qed.

Lemma rowReasons_nil_dec row n :
  rowReasons row n = [] ∨ (1 ≤ List.length (rowReasons row n))%nat.
Proof. destruct (rowReasons row n); [by left|right; cbn; lia]. Qed.

Lemma onData_counted row st : counted st → counted (onData row st).
Proof.
  intros (Hlen & Hpos & Hkeys & Hsub & Hfail & Herr & Hne).
  destruct (onData_fields row st) as (Hl & He & _ & Hf & _ & Hs & Hst).
  unfold counted, failedSaves. rewrite Hl, He, Hf, Hs, Hst, length_app.
  destruct (rowReasons row (length_ st + 1)) as [|r rs] eqn:Hrs.
  - rewrite bool_decide_eq_true_2 by done.
    assert (saves st !! (length_ st + 1) = None) as Hfresh.
    { apply not_elem_of_dom. intros Hin. apply Hkeys in Hin. lia. }
    rewrite map_size_insert_None by done.
    split; [lia|]. split; [lia|]. split.
    { intros i. rewrite dom_insert_L, elem_of_union, elem_of_singleton.
      intros [->|Hin]; [lia|]. apply Hkeys in Hin. lia. }
    split.
    { rewrite dom_insert_L. etrans; [exact Hsub|apply union_subseteq_r]. }
    unfold failedSaves in Hfail. split; [lia|].
    split; [cbn [List.length]; lia|]. rewrite app_nil_r.
    destruct Hne; [by left|right; lia].
  - rewrite bool_decide_eq_false_2 by done.
    split; [lia|]. split; [lia|]. split.
    { intros i Hin. apply Hkeys in Hin. lia. }
    split; [done|]. unfold failedSaves in Hfail.
    split; [lia|]. split; [cbn [List.length]; lia|]. right. lia.
Qed.

Lemma onSaveSettled_counted i r st :
  counted st → counted (onSaveSettled i r st).
Proof.
  intros Hc.
  destruct (onSaveSettled_cases i r st)
    as [([doc Hdoc] & Hnone & Hst & Hs & Hl & Hr)|[_ ->]]; [|done].
  destruct Hc as (Hlen & Hpos & Hkeys & Hsub & Hfail & Herr & Hne).
  unfold counted, failedSaves in *. rewrite Hst, Hs, Hl.
  rewrite failedSaves_insert by done.
  assert (dom (<[ i := r ]> (settled st)) ⊆ dom (saves st)) as Hsub'.
  { rewrite dom_insert_L. apply elem_of_dom_2 in Hdoc.
    apply union_subseteq. split; [by apply singleton_subseteq_l|done]. }
  destruct r as [|message]; cbn [isFailed].
  - destruct Hr as (-> & _ & -> & _).
    split; [done|]. split; [done|]. split; [done|]. split; [done|].
    split; [lia|]. split; [lia|done].
  - destruct Hr as (-> & _ & -> & _). rewrite length_app. cbn [List.length].
    split; [done|]. split; [lia|]. split; [done|]. split; [done|].
    split; [lia|]. split; [lia|]. right. lia.
Qed.

Lemma step_counted st ev : counted st → counted (step st ev).
Proof.
  intros Hc. destruct ev; cbn [step].
  - done.
  - by apply onData_counted.
  - by apply onSaveSettled_counted.
  - destruct (onEnd_fields st) as (Hl & Hf & He & _ & _ & Hs & Hst).
    unfold counted, failedSaves in *. by rewrite Hl, Hf, He, Hs, Hst.
  - unfold onError.
    destruct (settle_fields (RejectStream message) st)
      as (Hl & Hf & _ & He & _ & _ & Hs & Hst).
    unfold counted, failedSaves in *. by rewrite Hl, Hf, He, Hs, Hst.
Qed.

Lemma run_counted evs : counted (run evs).
Proof.
  induction evs as [|ev evs IHevs] using rev_ind.
  - unfold run, counted, failedSaves; cbn.
    split; [done|]. split; [done|].
    split; [intros i Hi; by rewrite dom_empty_L in Hi|].
    split; [done|].
    split; [done|]. split; [done|]. by left.
  - rewrite run_snoc. by apply step_counted.
Qed.

End Bookkeeping.

(** ** Outcomes *)

Section Outcomes.

Implicit Types (st : State) (evs : list Event) (o : Outcome).

Lemma streaming_app evs evs' :
  streaming (evs ++ evs') = streaming evs && streaming evs'.
Proof. unfold streaming. apply forallb_app. Qed.

Lemma pending_streaming evs :
  promise (run evs) = None → streaming evs = true.
Proof.
  induction evs as [|ev evs IHevs] using rev_ind; [done|].
  rewrite run_snoc, streaming_app. intros Hp.
  destruct (promise (run evs)) as [o|] eqn:Ho.
  { by rewrite (step_settled _ _ _ Ho) in Hp. }
  rewrite IHevs by done. destruct ev; try done.
  - cbn [step] in Hp. destruct (onEnd_settles (run evs)) as [o Hs]. congruence.
  - cbn [step] in Hp. unfold onError in Hp. by rewrite settle_promise in Hp.
Qed.

(** Where a settled outcome comes from: the first ['end'] or ['error']. *)
Lemma settled_origin evs o :
  validateCSVAndStoreCSV evs = Some o →
  ∃ evs0 evs1,
    streaming evs0 = true ∧
    ((evs = (evs0 ++ EvEnd :: evs1)%list ∧ promise (onEnd (run evs0)) = Some o) ∨
     (∃ message, evs = (evs0 ++ EvError message :: evs1)%list ∧
                 o = RejectStream message)).
Proof.
  intros Ho. apply outcome_origin in Ho as (evs0 & ev & evs1 & -> & Hp & Ho).
  exists evs0, evs1. split; [by apply pending_streaming|].
  destruct ev; cbn [step] in Ho.
  - cbn [onHeaders promise] in Ho. congruence.
  - rewrite onData_promise in Ho. congruence.
  - rewrite onSaveSettled_promise in Ho. congruence.
  - by left.
  - right. exists message. split; [done|].
    unfold onError in Ho. rewrite settle_promise, Hp in Ho. by simplify_eq.
Qed.

Lemma counted_no_errors st :
  counted st → errors st = [] → numberoffailedrecords st = 0.
Proof.
  intros (_ & Hpos & _ & _ & _ & Herr & _) He. rewrite He in Herr.
  cbn [List.length] in Herr. lia.
Qed.

Lemma counted_failed_le st :
  counted st → (numberoffailedrecords st ≤ length_ st)%Z.
Proof.
  intros (_ & _ & _ & Hsub & Hfail & _). rewrite Hfail.
  pose proof (map_subseteq_size _ _
    (map_filter_subseteq (fun kv : Z * Stock.SaveResult => isFailed kv.2 = true)
                         (settled st))) as Hle1.
  pose proof (subseteq_size _ _ Hsub) as Hle2.
  rewrite !size_dom in Hle2. unfold failedSaves. lia.
Qed.

(** What a resolved promise carries. *)
Lemma resolved_shape evs message t f s :
  validateCSVAndStoreCSV evs = Some (Resolve message t f s) →
  message = "File validated successfully" ∧ f = 0 ∧ s = t ∧ (0 ≤ t)%Z.
Proof.
  intros Ho.
  apply settled_origin in Ho as (evs0 & evs1 & Hs & [[-> Ho]|(m & _ & Ho)]);
    [|done].
  rewrite onEnd_pending in Ho by (by apply run_streaming_promise).
  pose proof (run_counted evs0) as Hc.
  destruct (missingColumns _); [|done].
  destruct (errors (run evs0)) eqn:He; [|done].
  injection Ho as <- <- <- <-.
  rewrite (counted_no_errors _ Hc He).
  destruct Hc as (Hlen & _). split; [done|]. split; [done|]. split; lia.
Qed.

End Outcomes.

(** X1. The promise is pending exactly as long as the stream has emitted
    neither ['end'] nor ['error']: no row and no save settles it, and either
    of the two events does. *)
Theorem outcome_pending_iff_streaming (evs : list Event) :
  validateCSVAndStoreCSV evs = None ↔ streaming evs = true.
Proof.
  split; [apply pending_streaming|apply run_streaming_promise].
Qed.

(** X2. The first outcome is final: once the promise is settled, no later
    event, be it a row, a save that settles, an ['end'] or an ['error'],
    changes what the caller receives. *)
Theorem outcome_final (evs evs' : list Event) (o : Outcome) :
  validateCSVAndStoreCSV evs = Some o →
  validateCSVAndStoreCSV (evs ++ evs') = Some o.
Proof.
  unfold validateCSVAndStoreCSV, run. intros Ho.
  rewrite fold_left_app. by apply run_settled.
Qed.

Lemma outcome_final_witness :
  validateCSVAndStoreCSV [EvError "EIO"] = Some (RejectStream "EIO") ∧
  validateCSVAndStoreCSV
    ([EvError "EIO"] ++ [EvHeaders REQUIRED_COLUMNS; EvData validRow; EvEnd]) =
    Some (RejectStream "EIO").
Proof.
  assert (validateCSVAndStoreCSV [EvError "EIO"] = Some (RejectStream "EIO"))
    as Ho by (by vm_compute).
  split; [exact Ho|].
  exact (outcome_final [EvError "EIO"]
           [EvHeaders REQUIRED_COLUMNS; EvData validRow; EvEnd] _ Ho).
Defined.

(** X3. An ['error'] of the stream that comes before ['end'] rejects the
    promise with [{ error: message }] whatever has been read, counted or
    saved until then, a complete header and failed rows included. *)
Theorem stream_error_outcome (evs evs' : list Event) (message : string) :
  streaming evs = true →
  validateCSVAndStoreCSV (evs ++ EvError message :: evs') =
    Some (RejectStream message).
Proof.
  intros Hs. unfold validateCSVAndStoreCSV. rewrite run_app.
  apply run_settled. cbn [step]. unfold onError.
  by rewrite settle_promise, run_streaming_promise.
Qed.

Lemma stream_error_outcome_witness :
  streaming [EvHeaders REQUIRED_COLUMNS; EvData invalidRow] = true ∧
  validateCSVAndStoreCSV
    ([EvHeaders REQUIRED_COLUMNS; EvData invalidRow] ++
     EvError "EIO" :: [EvEnd]) = Some (RejectStream "EIO").
Proof.
  split; [by vm_compute|].
  exact (stream_error_outcome [EvHeaders REQUIRED_COLUMNS; EvData invalidRow]
           [EvEnd] "EIO" eq_refl).
Defined.

(** X4. A resolved promise always carries the message
    ["File validated successfully"], [failedRecords] 0 and
    [successfulRecords] equal to [totalRecords]: the function never resolves
    once a row or a save has failed before the end of the stream. *)
Theorem success_report_shape (evs : list Event)
    (message : string) (t f s : Z) :
  validateCSVAndStoreCSV evs = Some (Resolve message t f s) →
  message = "File validated successfully" ∧ f = 0 ∧ s = t ∧ (0 ≤ t)%Z.
Proof.
  intros Ho.
  apply settled_origin in Ho as (evs0 & evs1 & Hs & [[-> Ho]|(m & _ & Ho)]);
    [|done].
  rewrite onEnd_pending in Ho by (by apply run_streaming_promise).
  pose proof (run_counted evs0) as Hc.
  destruct (missingColumns _); [|done].
  destruct (errors (run evs0)) eqn:He; [|done].
  injection Ho as <- <- <- <-.
  rewrite (counted_no_errors _ Hc He).
  destruct Hc as (Hlen & _). split; [done|]. split; [done|]. split; lia.
Qed.

Lemma success_report_shape_witness :
  validateCSVAndStoreCSV
    [EvHeaders REQUIRED_COLUMNS; EvData validRow; EvData slashDateRow; EvEnd] =
    Some (Resolve "File validated successfully" 2 0 2) ∧
  "File validated successfully" = "File validated successfully" ∧
  0 = 0 ∧ 2 = 2 ∧ (0 ≤ 2)%Z.
Proof.
  assert (validateCSVAndStoreCSV
            [EvHeaders REQUIRED_COLUMNS; EvData validRow; EvData slashDateRow;
             EvEnd] =
          Some (Resolve "File validated successfully" 2 0 2)) as Ho
    by (by vm_compute).
  split; [exact Ho|].
  exact (success_report_shape _ _ _ _ _ Ho).
Defined.

(** X5. A validation failure report always carries the error
    ["Validation errors found"], at least one failed record and at most as
    many as rows were read, a successful count that is not negative, and a
    list of reasons that is not empty. *)
Theorem failure_report_shape (evs : list Event)
    (e : string) (t f s : Z) (rs : list string) :
  validateCSVAndStoreCSV evs = Some (RejectReport e t f s rs) →
  e = "Validation errors found" ∧
  (1 ≤ f ≤ t)%Z ∧ (0 ≤ s < t)%Z ∧ rs ≠ [].
Proof.
  intros Ho.
  apply settled_origin in Ho as (evs0 & evs1 & Hs & [[-> Ho]|(m & _ & Ho)]);
    [|done].
  rewrite onEnd_pending in Ho by (by apply run_streaming_promise).
  pose proof (run_counted evs0) as Hc.
  pose proof (counted_failed_le _ Hc) as Hle.
  destruct (run_consistent evs0) as (_ & Hfo & _).
  destruct (missingColumns _); [|done].
  destruct (errors (run evs0)) as [|x errs] eqn:He; [done|].
  injection Ho as <- <- <- <- <-.
  destruct Hc as (_ & _ & _ & _ & _ & _ & [Hnil|Hone]); [by rewrite He in Hnil|].
  split; [done|]. split; [lia|]. split; [lia|].
  rewrite Hfo. by cbn [firstOccurrences].
Qed.

Lemma failure_report_shape_witness :
  validateCSVAndStoreCSV
    [EvHeaders REQUIRED_COLUMNS; EvData validRow; EvData invalidRow; EvEnd] =
    Some (RejectReport "Validation errors found" 2 1 1
            [ "Invalid date format in row 2";
              "Invalid number in field 'Prev Close' in row 2" ]) ∧
  "Validation errors found" = "Validation errors found" ∧
  (1 ≤ 1 ≤ 2)%Z ∧ (0 ≤ 1 < 2)%Z ∧
  [ "Invalid date format in row 2";
    "Invalid number in field 'Prev Close' in row 2" ] ≠ [].
Proof.
  assert (validateCSVAndStoreCSV
            [EvHeaders REQUIRED_COLUMNS; EvData validRow; EvData invalidRow;
             EvEnd] =
          Some (RejectReport "Validation errors found" 2 1 1
                  [ "Invalid date format in row 2";
                    "Invalid number in field 'Prev Close' in row 2" ])) as Ho
    by (by vm_compute).
  split; [exact Ho|].
  exact (failure_report_shape _ _ _ _ _ _ Ho).
Defined.

(** ** Rows read and saves issued *)

Section RowsAndSaves.

Implicit Types (st : State) (evs : list Event) (row : gmap string string).

Lemma dataRows_app evs evs' :
  dataRows (evs ++ evs') = (dataRows evs ++ dataRows evs')%list.
Proof.
  induction evs as [|ev evs IHevs]; [done|].
  destruct ev; cbn [app dataRows]; by rewrite IHevs.
Qed.

Lemma step_length st ev :
  length_ (step st ev) =
  match ev with EvData _ => length_ st + 1 | _ => length_ st end.
Proof.
  destruct ev; cbn [step].
  - done.
  - by destruct (onData_fields row st) as (-> & _).
  - destruct (onSaveSettled_cases i r st) as [(_ & _ & _ & _ & -> & _)|[_ ->]];
      done.
  - by destruct (onEnd_fields st) as (-> & _).
  - unfold onError.
    by destruct (settle_fields (RejectStream message) st) as (-> & _).
Qed.

Lemma step_saves st ev :
  saves (step st ev) =
  match ev with
  | EvData row =>
      if bool_decide (rowReasons row (length_ st + 1) = [])
      then <[ length_ st + 1 := newStock row ]> (saves st) else saves st
  | _ => saves st
  end.
Proof.
  destruct ev; cbn [step].
  - done.
  - by destruct (onData_fields row st) as (_ & _ & _ & _ & _ & -> & _).
  - destruct (onSaveSettled_cases i r st) as [(_ & _ & _ & -> & _)|[_ ->]];
      done.
  - by destruct (onEnd_fields st) as (_ & _ & _ & _ & _ & -> & _).
  - unfold onError.
    by destruct (settle_fields (RejectStream message) st)
      as (_ & _ & _ & _ & _ & _ & -> & _).
Qed.

Lemma run_length evs :
  length_ (run evs) = Z.of_nat (List.length (dataRows evs)).
Proof.
  induction evs as [|ev evs IHevs] using rev_ind; [done|].
  rewrite run_snoc, step_length, dataRows_app, length_app, IHevs.
  destruct ev; cbn [dataRows List.length]; lia.
Qed.

Lemma rowReasons_shape row n x :
  x ∈ rowReasons row n →
  x = dateError n ∨ ∃ f, f ∈ numericFields ∧ x = numberError f n.
Proof.
  unfold rowReasons, dateReasons.
  rewrite elem_of_app, elem_of_numberReasons.
  intros [Hd|(f & Hf & _ & ->)]; [|right; by exists f].
  destruct (isValidDate row); cbn [negb] in Hd; [by apply elem_of_nil in Hd|].
  apply list_elem_of_singleton in Hd. by left.
Qed.

Lemma rowReason_mono b b' x : (b ≤ b')%Z → rowReason b x → rowReason b' x.
Proof. intros Hb (m & Hm & Hx). exists m. split; [lia|done]. Qed.

(** Every error pushed names a row that has been read. *)
Lemma run_errors_rows evs :
  Forall (rowReason (length_ (run evs))) (errors (run evs)).
Proof.
  induction evs as [|ev evs IHevs] using rev_ind; [by constructor|].
  pose proof (run_counted evs) as (Hlen & _ & Hkeys & _).
  rewrite run_snoc, step_length.
  destruct ev as [headers|row|i r| |message]; cbn [step].
  - done.
  - destruct (onData_fields row (run evs)) as (_ & -> & _).
    apply Forall_app. split.
    + eapply Forall_impl; [exact IHevs|].
      intros x. apply rowReason_mono. lia.
    + apply Forall_forall. intros x Hx%rowReasons_shape.
      exists (length_ (run evs) + 1). split; [lia|].
      destruct Hx as [->|Hx]; [by left|right; by left].
  - destruct (onSaveSettled_cases i r (run evs))
      as [([doc Hdoc] & _ & _ & _ & _ & Hr)|[_ ->]]; [|done].
    destruct r as [|message].
    + by destruct Hr as (-> & _).
    + destruct Hr as (-> & _). apply Forall_app. split; [done|].
      apply Forall_singleton. exists (length_ (run evs)).
      apply elem_of_dom_2, Hkeys in Hdoc.
      split; [lia|]. right. right. by exists message.
  - by destruct (onEnd_fields (run evs)) as (_ & _ & -> & _).
  - unfold onError.
    by destruct (settle_fields (RejectStream message) (run evs))
      as (_ & _ & _ & -> & _).
Qed.

Lemma saves_filter_insert (b : bool) i r (m : gmap Z Stock.SaveResult) :
  m !! i = None →
  size (filter (fun kv : Z * Stock.SaveResult => isFailed kv.2 = b)
               (<[ i := r ]> m)) =
  (size (filter (fun kv : Z * Stock.SaveResult => isFailed kv.2 = b) m) +
   (if bool_decide (isFailed r = b) then 1 else 0))%nat.
Proof.
  intros Hi. case_bool_decide as Hr.
  - rewrite map_filter_insert_True by done.
    rewrite map_size_insert_None; [lia|].
    by rewrite map_lookup_filter_None; left.
  - rewrite map_filter_insert_not'; [lia|done|].
    intros y Hy. congruence.
Qed.

Lemma saves_filter_split (m : gmap Z Stock.SaveResult) :
  size m =
  (size (filter (fun kv : Z * Stock.SaveResult => isFailed kv.2 = true) m) +
   size (filter (fun kv : Z * Stock.SaveResult => isFailed kv.2 = false) m))%nat.
Proof.
  induction m as [|i r m Hi IHm] using map_ind.
  - by rewrite !map_filter_empty, !map_size_empty.
  - rewrite !saves_filter_insert, map_size_insert_None by done.
    destruct r; cbn [isFailed];
      repeat case_bool_decide; try done; lia.
Qed.

(** While the stream flows, the running counter of successes is the number
    of saves that have succeeded. *)
Lemma streaming_succeeded evs :
  streaming evs = true →
  numberofsucceedrecords (run evs) =
  Z.of_nat (size (succeededSaves (run evs))).
Proof.
  induction evs as [|ev evs IHevs] using rev_ind; [done|].
  rewrite streaming_app, andb_true_iff. intros [Hs Hev].
  specialize (IHevs Hs). rewrite run_snoc. unfold succeededSaves in *.
  destruct ev as [headers|row|i r| |message]; cbn [step]; try done.
  - by destruct (onData_fields row (run evs)) as (_ & _ & _ & _ & -> & _ & ->).
  - destruct (onSaveSettled_cases i r (run evs))
      as [(_ & Hnone & -> & _ & _ & Hr)|[_ ->]]; [|done].
    rewrite saves_filter_insert by done.
    destruct r as [|message]; cbn [isFailed].
    + destruct Hr as (_ & _ & _ & ->).
      rewrite bool_decide_eq_true_2 by done. lia.
    + destruct Hr as (_ & _ & _ & ->).
      rewrite bool_decide_eq_false_2 by done. lia.
Qed.

Lemma counted_successful st :
  counted st →
  length_ st - numberoffailedrecords st =
  Z.of_nat (size (succeededSaves st)) + Z.of_nat (size (inFlight st)).
Proof.
  intros (_ & _ & _ & Hsub & Hfail & _).
  unfold succeededSaves, inFlight, failedSaves in *.
  rewrite size_difference by done. rewrite !size_dom.
  pose proof (subseteq_size _ _ Hsub) as Hle. rewrite !size_dom in Hle.
  pose proof (saves_filter_split (settled st)) as Hsplit.
  lia.
Qed.

End RowsAndSaves.

(** X6. The [totalRecords] of every report is the number of rows the stream
    delivered before its ['end'], failed rows included; rows delivered after
    the report do not count. *)
Theorem total_is_rows_read (evs : list Event) (o : Outcome) (t : Z) :
  validateCSVAndStoreCSV evs = Some o →
  totalRecords o = Some t →
  ∃ evs0 evs1,
    evs = (evs0 ++ EvEnd :: evs1)%list ∧
    streaming evs0 = true ∧
    t = Z.of_nat (List.length (dataRows evs0)).
Proof.
  intros Ho Ht.
  apply settled_origin in Ho as (evs0 & evs1 & Hs & [[-> Ho]|(m & _ & ->)]);
    [|done].
  exists evs0, evs1. split; [done|]. split; [done|].
  rewrite onEnd_pending in Ho by (by apply run_streaming_promise).
  rewrite <- run_length.
  destruct (missingColumns _), (errors (run evs0)); by simplify_eq/=.
Qed.

Lemma total_is_rows_read_witness :
  validateCSVAndStoreCSV
    [EvHeaders REQUIRED_COLUMNS; EvData validRow; EvData invalidRow; EvEnd;
     EvData validRow] =
    Some (RejectReport "Validation errors found" 2 1 1
            [ "Invalid date format in row 2";
              "Invalid number in field 'Prev Close' in row 2" ]) ∧
  ∃ evs0 evs1,
    [EvHeaders REQUIRED_COLUMNS; EvData validRow; EvData invalidRow; EvEnd;
     EvData validRow] = (evs0 ++ EvEnd :: evs1)%list ∧
    streaming evs0 = true ∧
    2 = Z.of_nat (List.length (dataRows evs0)).
Proof.
  assert (validateCSVAndStoreCSV
            [EvHeaders REQUIRED_COLUMNS; EvData validRow; EvData invalidRow;
             EvEnd; EvData validRow] =
          Some (RejectReport "Validation errors found" 2 1 1
                  [ "Invalid date format in row 2";
                    "Invalid number in field 'Prev Close' in row 2" ])) as Ho
    by (by vm_compute).
  split; [exact Ho|].
  exact (total_is_rows_read _ _ 2 Ho eq_refl).
Defined.

(** X7. Every reason of a validation failure report names a row that was
    read: it is the date reason, the reason of one of the twelve numeric
    fields, or a save error, for a row number between 1 and [totalRecords]. *)
Theorem reasons_name_rows_read (evs : list Event)
    (e : string) (t f s : Z) (rs : list string) (x : string) :
  validateCSVAndStoreCSV evs = Some (RejectReport e t f s rs) →
  x ∈ rs →
  rowReason t x.
Proof.
  intros Ho Hx.
  apply report_origin in Ho as (evs0 & evs1 & _ & _ & -> & _ & _ & ->).
  destruct (run_consistent evs0) as (_ & Hfo & _).
  rewrite Hfo, firstOccurrences_elem in Hx.
  pose proof (run_errors_rows evs0) as Hall.
  rewrite Forall_forall in Hall. by apply Hall.
Qed.

Lemma reasons_name_rows_read_witness :
  validateCSVAndStoreCSV
    [EvHeaders REQUIRED_COLUMNS; EvData validRow; EvData invalidRow; EvEnd] =
    Some (RejectReport "Validation errors found" 2 1 1
            [ "Invalid date format in row 2";
              "Invalid number in field 'Prev Close' in row 2" ]) ∧
  "Invalid date format in row 2" ∈
    [ "Invalid date format in row 2";
      "Invalid number in field 'Prev Close' in row 2" ] ∧
  rowReason 2 "Invalid date format in row 2".
Proof.
  assert (validateCSVAndStoreCSV
            [EvHeaders REQUIRED_COLUMNS; EvData validRow; EvData invalidRow;
             EvEnd] =
          Some (RejectReport "Validation errors found" 2 1 1
                  [ "Invalid date format in row 2";
                    "Invalid number in field 'Prev Close' in row 2" ])) as Ho
    by (by vm_compute).
  assert ("Invalid date format in row 2" ∈
            [ "Invalid date format in row 2";
              "Invalid number in field 'Prev Close' in row 2" ]) as Hin
    by (by left).
  split; [exact Ho|]. split; [exact Hin|].
  exact (reasons_name_rows_read _ _ _ _ _ _ _ Ho Hin).
Defined.

(** X8. The [successfulRecords] of every report is the number of saves that
    had succeeded when the stream ended plus the number of saves still in
    flight at that moment; it exceeds the running counter
    [numberofsucceedrecords] by exactly the saves in flight. *)
Theorem successful_counts_saves_in_flight (evs evs' : list Event)
    (o : Outcome) (s : Z) :
  streaming evs = true →
  validateCSVAndStoreCSV (evs ++ EvEnd :: evs') = Some o →
  successfulRecords o = Some s →
  s = Z.of_nat (size (succeededSaves (run evs))) +
      Z.of_nat (size (inFlight (run evs))) ∧
  s = numberofsucceedrecords (run evs) + Z.of_nat (size (inFlight (run evs))).
Proof.
  intros Hs Ho Hsucc.
  rewrite outcome_at_end in Ho by done.
  rewrite onEnd_pending in Ho by (by apply run_streaming_promise).
  rewrite (streaming_succeeded evs Hs).
  pose proof (counted_successful _ (run_counted evs)) as Hc.
  destruct (missingColumns _), (errors (run evs)); simplify_eq/=; lia.
Qed.

Lemma successful_counts_saves_in_flight_witness :
  streaming threeRowsOneSaved = true ∧
  validateCSVAndStoreCSV (threeRowsOneSaved ++ EvEnd :: []) =
    Some (Resolve "File validated successfully" 3 0 3) ∧
  numberofsucceedrecords (run threeRowsOneSaved) = 1 ∧
  size (inFlight (run threeRowsOneSaved)) = 2%nat ∧
  3 = Z.of_nat (size (succeededSaves (run threeRowsOneSaved))) +
      Z.of_nat (size (inFlight (run threeRowsOneSaved))) ∧
  3 = numberofsucceedrecords (run threeRowsOneSaved) +
      Z.of_nat (size (inFlight (run threeRowsOneSaved))).
Proof.
  assert (validateCSVAndStoreCSV (threeRowsOneSaved ++ EvEnd :: []) =
          Some (Resolve "File validated successfully" 3 0 3)) as Ho
    by (by vm_compute).
  split; [by vm_compute|]. split; [exact Ho|].
  split; [by vm_compute|]. split; [by vm_compute|].
  exact (successful_counts_saves_in_flight threeRowsOneSaved [] _ 3
           eq_refl Ho eq_refl).
Defined.

(** X9. The sink is handed exactly the accepted rows: a save has been called
    under the row number [i] if and only if the [i]-th row read passes its
    checks, and the document saved is the one built from that row. A
    rejected row is never saved, and no row is saved twice. *)
Theorem sink_receives_accepted_rows (evs : list Event) (i : Z)
    (doc : Stock.t) :
  saves (run evs) !! i = Some doc ↔
  ∃ row, (1 ≤ i)%Z ∧ dataRows evs !! Z.to_nat (i - 1) = Some row ∧
         accepted row ∧ doc = newStock row.
Proof.
  revert i doc. induction evs as [|ev evs IHevs] using rev_ind; intros i doc.
  - split; [done|]. by intros (row & _ & Hrow & _).
  - rewrite run_snoc, step_saves, dataRows_app.
    destruct ev as [headers|row|j r| |message]; cbn [dataRows];
      rewrite ?app_nil_r; try apply IHevs.
    rewrite run_length.
    set (n := List.length (dataRows evs)).
    destruct (decide (i = Z.of_nat n + 1)) as [->|Hne].
    + replace (Z.to_nat (Z.of_nat n + 1 - 1)) with n by lia.
      rewrite list_lookup_middle by done.
      assert (saves (run evs) !! (Z.of_nat n + 1) = None) as Hnone.
      { destruct (saves (run evs) !! (Z.of_nat n + 1)) as [d|] eqn:Hd; [|done].
        apply IHevs in Hd as (row' & _ & Hrow' & _).
        apply lookup_lt_Some in Hrow'. fold n in Hrow'. lia. }
      case_bool_decide as Hrs.
      * rewrite lookup_insert_eq.
        apply accepted_rowReasons in Hrs. split.
        -- intros [= <-]. exists row. split; [lia|done].
        -- by intros (row' & _ & [= <-] & _ & ->).
      * rewrite Hnone. split; [done|].
        intros (row' & _ & [= <-] & Hacc & _).
        by apply (accepted_rowReasons row (Z.of_nat n + 1)) in Hacc.
    + assert ((if bool_decide (rowReasons row (Z.of_nat n + 1) = [])
               then <[ Z.of_nat n + 1 := newStock row ]> (saves (run evs))
               else saves (run evs)) !! i = saves (run evs) !! i) as ->.
      { case_bool_decide; [by rewrite lookup_insert_ne|done]. }
      rewrite IHevs. split.
      * intros (row' & Hi & Hrow' & Hrest). exists row'.
        split; [done|]. split; [|done].
        by apply lookup_app_l_Some.
      * intros (row' & Hi & Hrow' & Hrest). exists row'.
        split; [done|]. split; [|done].
        apply lookup_app_Some in Hrow' as [Hl|[Hge Hr]]; [done|].
        fold n in Hge, Hr.
        destruct (Z.to_nat (i - 1) - n)%nat as [|k] eqn:Hk; [lia|done].
Qed.

Lemma sink_receives_accepted_rows_witness :
  saves (run [EvHeaders REQUIRED_COLUMNS; EvData invalidRow; EvData validRow])
    !! 1 = None ∧
  saves (run [EvHeaders REQUIRED_COLUMNS; EvData invalidRow; EvData validRow])
    !! 2 = Some (newStock validRow) ∧
  ∃ row, (1 ≤ 2)%Z ∧
         dataRows [EvHeaders REQUIRED_COLUMNS; EvData invalidRow;
                   EvData validRow] !! Z.to_nat (2 - 1) = Some row ∧
         accepted row ∧ newStock validRow = newStock row.
Proof.
  assert (saves (run [EvHeaders REQUIRED_COLUMNS; EvData invalidRow;
                      EvData validRow]) !! 2 = Some (newStock validRow)) as Hs
    by (by vm_compute).
  split; [by vm_compute|]. split; [exact Hs|].
  exact (proj1 (sink_receives_accepted_rows _ _ _) Hs).
Defined.

(** ** Blank values and the header check *)

Section BlankAndHeaders.

Implicit Types (st : State) (evs : list Event) (row : gmap string string).

Lemma whiteSpace_not_digit c :
  JS.isWhiteSpace c = true → JS.digitValue c = None.
Proof. destruct c as [[] [] [] [] [] [] [] []]; by vm_compute. Qed.

Lemma trimStart_empty_head c rest :
  JS.trimStart (String c rest) = "" → JS.isWhiteSpace c = true.
Proof. cbn [JS.trimStart]. by destruct (JS.isWhiteSpace c). Qed.

Lemma blank_invalidNumber (v : JS.value) :
  blank v = true → invalidNumber v = true.
Proof.
  intros Hb. rewrite invalidNumber_starts.
  destruct v as [s|]; [|by vm_compute].
  cbn [blank] in Hb. apply String.eqb_eq in Hb.
  unfold startsDecimalLiteral. cbn [JS.ToString]. by rewrite Hb.
Qed.

Lemma blank_readDigits n s :
  blank (Some s) = true → Moment.readDigits (S n) s 0 = None.
Proof.
  cbn [blank]. intros Hb%String.eqb_eq. cbn [Moment.readDigits].
  destruct s as [|c rest]; [done|].
  by rewrite (whiteSpace_not_digit c (trimStart_empty_head _ _ Hb)).
Qed.

Lemma blank_invalidDate row :
  blank (row !! "Date") = true → isValidDate row = false.
Proof.
  intros Hb. unfold isValidDate, dateFormats. cbn [existsb].
  destruct (row !! "Date") as [s|]; [|by vm_compute].
  unfold Moment.moment.
  destruct tokenize_dateFormats as (-> & -> & ->).
  cbn [JS.ToString Moment.parseTokens].
  by rewrite !(blank_readDigits _ s Hb).
Qed.

Lemma elem_of_observedHeaders evs c :
  c ∈ observedHeaders evs ↔
  ∃ headers h, EvHeaders headers ∈ evs ∧ h ∈ headers ∧ JS.trim h = c.
Proof.
  induction evs as [|ev evs IHevs].
  - cbn [observedHeaders]. split; [by intros ?%not_elem_of_empty|].
    by intros (headers & h & ?%elem_of_nil & _).
  - assert ((∃ headers h, EvHeaders headers ∈ evs ∧ h ∈ headers ∧
                          JS.trim h = c) →
            ∃ headers h, EvHeaders headers ∈ ev :: evs ∧ h ∈ headers ∧
                         JS.trim h = c) as Hweak.
    { intros (headers & h & Hin & Hh). exists headers, h.
      split; [by right|done]. }
    destruct ev as [headers0|row|i r| |message]; cbn [observedHeaders];
      try (rewrite IHevs; split; [exact Hweak|];
           intros (headers & h & [Heq|Hin]%elem_of_cons & Hh);
           [discriminate Heq|by exists headers, h]).
    rewrite elem_of_union, elem_of_list_to_set, list_elem_of_fmap, IHevs.
    split.
    + intros [(h & -> & Hh)|Hrec]; [|by apply Hweak].
      exists headers0, h. split; [by left|done].
    + intros (headers & h & [[= ->]|Hin]%elem_of_cons & Hh & Htrim).
      * left. by exists h.
      * right. by exists headers, h.
Qed.

Lemma missingColumns_nil (cols : gset string) :
  missingColumns cols = [] ↔ ∀ c, c ∈ REQUIRED_COLUMNS → c ∈ cols.
Proof.
  unfold missingColumns. generalize REQUIRED_COLUMNS as required.
  induction required as [|r required IHr]; cbn [List.filter].
  - split; [|done]. by intros _ c ?%elem_of_nil.
  - case_bool_decide as Hr; cbn [negb].
    + rewrite IHr. split.
      * intros Hall c [->|Hc]%elem_of_cons; auto.
      * intros Hall c Hc. apply Hall. by right.
    + split; [done|]. intros Hall. destruct Hr. apply Hall. by left.
Qed.

End BlankAndHeaders.

(** X10. A row that lacks its date or one of its numeric columns, or holds
    there an empty string or white space only, is rejected: the reason of
    that field is recorded, the failed count rises by one and nothing is
    handed to the sink. *)
Theorem blank_field_rejected (row : gmap string string) (st : State)
    (field : string) :
  field ∈ "Date" :: numericFields →
  blank (row !! field) = true →
  numberoffailedrecords (onData row st) = numberoffailedrecords st + 1 ∧
  saves (onData row st) = saves st ∧
  (field = "Date" → dateError (length_ st + 1) ∈ errors (onData row st)) ∧
  (field ∈ numericFields →
   numberError field (length_ st + 1) ∈ errors (onData row st)).
Proof.
  intros Hf Hb.
  destruct (onData_fields row st) as (_ & -> & _ & -> & _ & -> & _).
  assert ((field = "Date" →
           dateError (length_ st + 1) ∈ rowReasons row (length_ st + 1)) ∧
          (field ∈ numericFields →
           numberError field (length_ st + 1) ∈
             rowReasons row (length_ st + 1))) as [Hd Hn].
  { split.
    - intros ->. by apply dateError_in_rowReasons, blank_invalidDate.
    - intros Hnum. by apply numberError_in_rowReasons, blank_invalidNumber. }
  assert (rowReasons row (length_ st + 1) ≠ []) as Hne.
  { apply elem_of_cons in Hf as [->|Hnum].
    - intros Hnil. specialize (Hd eq_refl). rewrite Hnil in Hd.
      by apply elem_of_nil in Hd.
    - intros Hnil. specialize (Hn Hnum). rewrite Hnil in Hn.
      by apply elem_of_nil in Hn. }
  rewrite bool_decide_eq_false_2 by done.
  split; [done|]. split; [done|].
  split; intros H; apply elem_of_app; right; auto.
Qed.

Lemma blank_field_rejected_witness :
  "Volume" ∈ "Date" :: numericFields ∧
  blank (delete "Volume" validRow !! "Volume") = true ∧
  errors (onData (delete "Volume" validRow) initial) =
    [ "Invalid number in field 'Volume' in row 1" ] ∧
  numberoffailedrecords (onData (delete "Volume" validRow) initial) =
    numberoffailedrecords initial + 1 ∧
  saves (onData (delete "Volume" validRow) initial) = saves initial ∧
  ("Volume" = "Date" →
   dateError (length_ initial + 1) ∈
     errors (onData (delete "Volume" validRow) initial)) ∧
  ("Volume" ∈ numericFields →
   numberError "Volume" (length_ initial + 1) ∈
     errors (onData (delete "Volume" validRow) initial)).
Proof.
  assert ("Volume" ∈ "Date" :: numericFields) as Hin
    by (apply (bool_decide_unpack _); by vm_compute).
  split; [exact Hin|]. split; [by vm_compute|]. split; [by vm_compute|].
  exact (blank_field_rejected (delete "Volume" validRow) initial "Volume"
           Hin eq_refl).
Defined.

(** X11. The header check fails exactly when some required name is the
    trimmed form of no header seen: the order of the headers, repeated
    headers, further columns and white space around a name play no part. *)
Theorem header_check_characterised (evs evs' : list Event) :
  streaming evs = true →
  (∃ message,
     validateCSVAndStoreCSV (evs ++ EvEnd :: evs') =
       Some (RejectError message)) ↔
  ∃ c, c ∈ REQUIRED_COLUMNS ∧
       ∀ headers h, EvHeaders headers ∈ evs → h ∈ headers → JS.trim h ≠ c.
Proof.
  intros Hs.
  rewrite outcome_at_end by done.
  rewrite onEnd_pending by (by apply run_streaming_promise).
  rewrite run_streaming_columns by done.
  pose proof (missingColumns_nil (observedHeaders evs)) as Hnil.
  split.
  - intros [message Ho].
    destruct (decide (Forall (fun c => c ∈ observedHeaders evs)
                             REQUIRED_COLUMNS)) as [Hall|Hex].
    + rewrite Forall_forall in Hall. apply Hnil in Hall. rewrite Hall in Ho.
      by destruct (errors (run evs)).
    + apply not_Forall_Exists in Hex; [|apply _].
      apply Exists_exists in Hex as (c & Hc & Hnot). exists c.
      split; [done|]. intros headers h Hin Hh Htrim. apply Hnot.
      apply elem_of_observedHeaders. by exists headers, h.
  - intros (c & Hc & Hnone). clear Hnil.
    destruct (missingColumns (observedHeaders evs)) as [|m ms] eqn:Hm.
    + exfalso.
      pose proof (proj1 (missingColumns_nil (observedHeaders evs)) Hm c Hc)
        as Hobs.
      apply elem_of_observedHeaders in Hobs
        as (headers & h & Hin & Hh & Htrim).
      by apply (Hnone headers h).
    + eauto.
Qed.

Lemma header_check_characterised_witness :
  streaming [EvHeaders (" Date " :: "Date" :: "Extra" ::
                        List.rev REQUIRED_COLUMNS)] = true ∧
  validateCSVAndStoreCSV
    ([EvHeaders (" Date " :: "Date" :: "Extra" :: List.rev REQUIRED_COLUMNS)]
     ++ EvEnd :: []) =
    Some (Resolve "File validated successfully" 0 0 0) ∧
  ((∃ message,
      validateCSVAndStoreCSV
        ([EvHeaders (" Date " :: "Date" :: "Extra" ::
                     List.rev REQUIRED_COLUMNS)] ++ EvEnd :: []) =
        Some (RejectError message)) ↔
   ∃ c, c ∈ REQUIRED_COLUMNS ∧
        ∀ headers h,
          EvHeaders headers ∈
            [EvHeaders (" Date " :: "Date" :: "Extra" ::
                        List.rev REQUIRED_COLUMNS)] →
          h ∈ headers → JS.trim h ≠ c).
Proof.
  split; [by vm_compute|]. split; [by vm_compute|].
  exact (header_check_characterised
           [EvHeaders (" Date " :: "Date" :: "Extra" ::
                       List.rev REQUIRED_COLUMNS)] [] eq_refl).
Defined.

(** ** The numbers and the date of a stored document *)

Section StoredValues.

Import Moment.

Implicit Types (row : gmap string string) (v : JS.value).




Lemma readDigits_length n s acc x :
  readDigits n s acc = Some (x, "") → String.length s = n.
Proof.
  revert s acc. induction n as [|n IHn]; intros s acc; cbn [readDigits].
  - by intros [= _ ->].
  - destruct s as [|c s]; [done|]. destruct (JS.digitValue c); [|done].
    intros Hr. cbn [String.length]. f_equal. by apply (IHn _ _ Hr).
Qed.

Lemma digitValue_compare c1 c2 d1 d2 :
  JS.digitValue c1 = Some d1 → JS.digitValue c2 = Some d2 →
  Ascii.compare c1 c2 = N.compare d1 d2.
Proof.
  unfold JS.digitValue, Ascii.compare. cbv zeta.
  destruct ((48 <=? N_of_ascii c1)%N && (N_of_ascii c1 <=? 57)%N) eqn:Hr1;
    [|done].
  intros [= <-].
  destruct ((48 <=? N_of_ascii c2)%N && (N_of_ascii c2 <=? 57)%N) eqn:Hr2;
    [|done].
  intros [= <-].
  apply andb_true_iff in Hr1 as [H1 _], Hr2 as [H2 _].
  apply N.leb_le in H1, H2.
  destruct (N.compare_spec (N_of_ascii c1) (N_of_ascii c2)) as [Heq|Hlt|Hgt];
    symmetry.
  - apply N.compare_eq_iff. lia.
  - apply N.compare_lt_iff. lia.
  - apply N.compare_gt_iff. lia.
Qed.

(** Strings of equally many digits are ordered like the numbers they
    write. *)
Lemma readDigits_compare n s1 s2 acc x1 x2 :
  readDigits n s1 acc = Some (x1, "") →
  readDigits n s2 acc = Some (x2, "") →
  String.compare s1 s2 = Z.compare x1 x2.
Proof.
  revert s1 s2 acc. induction n as [|n IHn]; intros s1 s2 acc;
    cbn [readDigits].
  - intros [= <- ->] [= <- ->]. by rewrite Z.compare_refl.
  - destruct s1 as [|c1 s1]; [done|]. destruct s2 as [|c2 s2]; [done|].
    destruct (JS.digitValue c1) as [d1|] eqn:Hc1; [|done].
    destruct (JS.digitValue c2) as [d2|] eqn:Hc2; [|done].
    intros H1 H2. cbn [String.compare].
    rewrite (digitValue_compare _ _ _ _ Hc1 Hc2).
    pose proof (readDigits_bound _ _ _ _ _ H1) as Hb1.
    pose proof (readDigits_bound _ _ _ _ _ H2) as Hb2.
    assert (0 < 10 ^ Z.of_nat n)%Z as Hpow by (apply Z.pow_pos_nonneg; lia).
    destruct (N.compare_spec d1 d2) as [->|Hlt|Hgt].
    + by apply (IHn _ _ _ H1 H2).
    + symmetry. apply Z.compare_lt_iff. nia.
    + symmetry. apply Z.compare_gt_iff. nia.
Qed.

Lemma string_compare_app s1 s2 t1 t2 :
  String.length s1 = String.length s2 →
  String.compare (s1 +:+ t1) (s2 +:+ t2) =
  match String.compare s1 s2 with
  | Eq => String.compare t1 t2
  | c => c
  end.
Proof.
  revert s2. induction s1 as [|c1 s1 IHs]; intros [|c2 s2] Hlen;
    try discriminate Hlen; [done|].
  rewrite !string_app_cons. cbn [String.compare].
  destruct (Ascii.compare c1 c2); [|done..].
  apply IHs. by injection Hlen.
Qed.

Lemma zeroFill_compare4 x y :
  (0 ≤ x < 10000)%Z → (0 ≤ y < 10000)%Z →
  String.length (zeroFill x 4) = String.length (zeroFill y 4) ∧
  String.compare (zeroFill x 4) (zeroFill y 4) = Z.compare x y.
Proof.
  intros Hx%readDigits_zeroFill4 Hy%readDigits_zeroFill4. split.
  - by rewrite (readDigits_length _ _ _ _ Hx), (readDigits_length _ _ _ _ Hy).
  - by apply (readDigits_compare 4 _ _ 0).
Qed.

Lemma zeroFill_compare2 x y :
  (0 ≤ x < 100)%Z → (0 ≤ y < 100)%Z →
  String.length (zeroFill x 2) = String.length (zeroFill y 2) ∧
  String.compare (zeroFill x 2) (zeroFill y 2) = Z.compare x y.
Proof.
  intros Hx%readDigits_zeroFill2 Hy%readDigits_zeroFill2. split.
  - by rewrite (readDigits_length _ _ _ _ Hx), (readDigits_length _ _ _ _ Hy).
  - by apply (readDigits_compare 2 _ _ 0).
Qed.

(** The canonical renderings of two dates in range are ordered like the
    dates. *)
Lemma format_compare a b :
  (0 ≤ YEAR a < 10000)%Z → (0 ≤ MONTH a + 1 < 100)%Z → (0 ≤ DATE a < 100)%Z →
  (0 ≤ YEAR b < 10000)%Z → (0 ≤ MONTH b + 1 < 100)%Z → (0 ≤ DATE b < 100)%Z →
  String.compare (format (Some a) "YYYY-MM-DD") (format (Some b) "YYYY-MM-DD") =
  dateCompare a b.
Proof.
  intros Hya Hma Hda Hyb Hmb Hdb. unfold format, dateCompare.
  destruct tokenize_dateFormats as (-> & _ & _). cbn [formatTokens].
  destruct (zeroFill_compare4 _ _ Hya Hyb) as [Hl4 Hc4].
  destruct (zeroFill_compare2 _ _ Hma Hmb) as [Hlm Hcm].
  destruct (zeroFill_compare2 _ _ Hda Hdb) as [Hld Hcd].
  assert ((MONTH a + 1 ?= MONTH b + 1)%Z = (MONTH a ?= MONTH b)%Z) as Hmono
    by (rewrite !(Z.add_comm _ 1); apply Z.add_compare_mono_l).
  rewrite Hmono in Hcm.
  rewrite (string_compare_app _ _ _ _ Hl4), Hc4.
  destruct (YEAR a ?= YEAR b)%Z; [|done..].
  cbn [String.compare].
  change (Ascii.compare "-" "-") with Eq. cbv iota.
  rewrite (string_compare_app _ _ _ _ Hlm), Hcm.
  destruct (MONTH a ?= MONTH b)%Z; [|done..].
  cbn [String.compare].
  change (Ascii.compare "-" "-") with Eq. cbv iota.
  rewrite (string_compare_app _ _ _ _ Hld), Hcd.
  by destruct (DATE a ?= DATE b)%Z.
Qed.

Lemma accepted_dateArray row :
  accepted row →
  ∃ a, momentFormats (row !! "Date") dateFormats = Some a ∧
       Stock.date (newStock row) = format (Some a) "YYYY-MM-DD" ∧
       (0 ≤ YEAR a < 10000)%Z ∧ (0 ≤ MONTH a + 1 < 100)%Z ∧
       (0 ≤ DATE a < 100)%Z.
Proof.
  intros Hacc.
  destruct (isValidDate_momentFormats row
              (proj1 (proj1 (accepted_spec row) Hacc))) as [a Ha].
  exists a. split; [done|].
  split; [cbn [newStock Stock.date]; by rewrite Ha|].
  apply momentFormats_first in Ha as (pre & fmt & post & Hsplit & _ & Hfmt).
  assert (fmt ∈ dateFormats) as Hin.
  { rewrite Hsplit. apply elem_of_app. right. by left. }
  by destruct (moment_ranges _ _ _ Hin Hfmt) as ((Hy & Hm & Hd) & _).
Qed.

Lemma readDigits_get_digit n s acc x r k :
  readDigits n s acc = Some (x, r) → (k < n)%nat →
  ∃ c, String.get k s = Some c ∧ JS.isDigit c = true.
Proof.
  revert s acc k. induction n as [|n IHn]; intros s acc k; [lia|].
  cbn [readDigits]. destruct s as [|c s]; [done|].
  destruct (JS.digitValue c) as [d|] eqn:Hc; [|done].
  intros Hr Hk. destruct k as [|k].
  - exists c. split; [done|]. unfold JS.isDigit. by rewrite Hc.
  - cbn [String.get]. apply (IHn _ _ _ Hr). lia.
Qed.

Lemma readDigits_get_rest n s acc x r k :
  readDigits n s acc = Some (x, r) → String.get (n + k) s = String.get k r.
Proof.
  revert s acc. induction n as [|n IHn]; intros s acc; cbn [readDigits].
  - by intros [= _ ->].
  - destruct s as [|c s]; [done|]. destruct (JS.digitValue c); [|done].
    intros Hr. cbn [Nat.add String.get]. by apply (IHn _ _ Hr).
Qed.

(** The third character tells the three layouts apart. *)
Lemma moment_third_char v a :
  (moment v "YYYY-MM-DD" = Some a →
   ∃ c, String.get 2 (JS.ToString v) = Some c ∧ JS.isDigit c = true) ∧
  (moment v "MM/DD/YYYY" = Some a →
   String.get 2 (JS.ToString v) = Some "/"%char) ∧
  (moment v "DD-MM-YYYY" = Some a →
   String.get 2 (JS.ToString v) = Some "-"%char).
Proof.
  destruct tokenize_dateFormats as (H1 & H2 & H3).
  split; [|split]; intros Hm.
  - unfold moment in Hm. rewrite H1 in Hm. cbn [parseTokens] in Hm.
    destruct (readDigits 4 (JS.ToString v) 0) as [[x r]|] eqn:Hread;
      [|done].
    apply (readDigits_get_digit _ _ _ _ _ 2 Hread). lia.
  - unfold moment in Hm. rewrite H2 in Hm. cbn [parseTokens] in Hm.
    destruct (readDigits 2 (JS.ToString v) 0) as [[x r]|] eqn:Hread;
      [|done].
    change (String.get 2 (JS.ToString v))
      with (String.get (2 + 0) (JS.ToString v)).
    rewrite (readDigits_get_rest 2 _ _ _ _ 0 Hread).
    destruct r as [|c r]; [done|].
    by destruct (Ascii.eqb_spec "/" c) as [<-|].
  - unfold moment in Hm. rewrite H3 in Hm. cbn [parseTokens] in Hm.
    destruct (readDigits 2 (JS.ToString v) 0) as [[x r]|] eqn:Hread;
      [|done].
    change (String.get 2 (JS.ToString v))
      with (String.get (2 + 0) (JS.ToString v)).
    rewrite (readDigits_get_rest 2 _ _ _ _ 0 Hread).
    destruct r as [|c r]; [done|].
    by destruct (Ascii.eqb_spec "-" c) as [<-|].
Qed.

End StoredValues.



(** X13. The dates stored for two accepted rows compare, as strings, the
    way the calendar dates compare: the canonical form keeps the
    chronological order, whichever of the three layouts each date was
    written in. *)
Theorem stored_dates_ordered (row1 row2 : gmap string string) :
  accepted row1 → accepted row2 →
  ∃ a1 a2,
    Moment.momentFormats (row1 !! "Date") dateFormats = Some a1 ∧
    Moment.momentFormats (row2 !! "Date") dateFormats = Some a2 ∧
    String.compare (Stock.date (newStock row1)) (Stock.date (newStock row2)) =
      dateCompare a1 a2.
Proof.
  intros (a1 & Ha1 & -> & Hy1 & Hm1 & Hd1)%accepted_dateArray
         (a2 & Ha2 & -> & Hy2 & Hm2 & Hd2)%accepted_dateArray.
  exists a1, a2. split; [done|]. split; [done|].
  by apply format_compare.
Qed.

Lemma stored_dates_ordered_witness :
  accepted slashDateRow ∧ accepted validRow ∧
  String.compare (Stock.date (newStock slashDateRow))
                 (Stock.date (newStock validRow)) = Gt ∧
  String.compare (JS.ToString (slashDateRow !! "Date"))
                 (JS.ToString (validRow !! "Date")) = Lt ∧
  ∃ a1 a2,
    Moment.momentFormats (slashDateRow !! "Date") dateFormats = Some a1 ∧
    Moment.momentFormats (validRow !! "Date") dateFormats = Some a2 ∧
    String.compare (Stock.date (newStock slashDateRow))
                   (Stock.date (newStock validRow)) = dateCompare a1 a2.
Proof.
  assert (accepted slashDateRow) as H1 by (by vm_compute).
  assert (accepted validRow) as H2 by (by vm_compute).
  split; [exact H1|]. split; [exact H2|].
  split; [by vm_compute|]. split; [by vm_compute|].
  exact (stored_dates_ordered slashDateRow validRow H1 H2).
Defined.

(** X14. The three layouts exclude one another: a raw date is valid under at
    most one of them, so that the order of [dateFormats] never decides how a
    date is read. *)
Theorem layouts_exclusive (v : JS.value) (f1 f2 : string)
    (a1 a2 : Moment.DateArray) :
  f1 ∈ dateFormats → f2 ∈ dateFormats →
  Moment.moment v f1 = Some a1 → Moment.moment v f2 = Some a2 →
  f1 = f2 ∧ a1 = a2.
Proof.
  intros Hf1 Hf2 Hm1 Hm2.
  assert (f1 = f2) as ->; [|split; [done|congruence]].
  destruct (moment_third_char v a1) as (Hy1 & Hs1 & Hd1).
  destruct (moment_third_char v a2) as (Hy2 & Hs2 & Hd2).
  unfold dateFormats in Hf1, Hf2.
  repeat (apply elem_of_cons in Hf1 as [->|Hf1]);
    [| | |by apply elem_of_nil in Hf1];
    (repeat (apply elem_of_cons in Hf2 as [->|Hf2]);
     [| | |by apply elem_of_nil in Hf2]); try done.
  - destruct (Hy1 Hm1) as (c & Hc & Hdig). rewrite (Hs2 Hm2) in Hc.
    injection Hc as <-. discriminate Hdig.
  - destruct (Hy1 Hm1) as (c & Hc & Hdig). rewrite (Hd2 Hm2) in Hc.
    injection Hc as <-. discriminate Hdig.
  - destruct (Hy2 Hm2) as (c & Hc & Hdig). rewrite (Hs1 Hm1) in Hc.
    injection Hc as <-. discriminate Hdig.
  - pose proof (Hs1 Hm1) as Hc. rewrite (Hd2 Hm2) in Hc. discriminate Hc.
  - destruct (Hy2 Hm2) as (c & Hc & Hdig). rewrite (Hd1 Hm1) in Hc.
    injection Hc as <-. discriminate Hdig.
  - pose proof (Hd1 Hm1) as Hc. rewrite (Hs2 Hm2) in Hc. discriminate Hc.
Qed.

Lemma layouts_exclusive_witness :
  "DD-MM-YYYY" ∈ dateFormats ∧
  Moment.moment (Some "01-02-2024") "DD-MM-YYYY" =
    Some {| Moment.YEAR := 2024; Moment.MONTH := 1; Moment.DATE := 1 |} ∧
  "DD-MM-YYYY" = "DD-MM-YYYY" ∧
  {| Moment.YEAR := 2024; Moment.MONTH := 1; Moment.DATE := 1 |} =
  {| Moment.YEAR := 2024; Moment.MONTH := 1; Moment.DATE := 1 |}.
Proof.
  assert ("DD-MM-YYYY" ∈ dateFormats) as Hin
    by (apply (bool_decide_unpack _); by vm_compute).
  assert (Moment.moment (Some "01-02-2024") "DD-MM-YYYY" =
          Some {| Moment.YEAR := 2024; Moment.MONTH := 1; Moment.DATE := 1 |})
    as Hm by (by vm_compute).
  split; [exact Hin|]. split; [exact Hm|].
  exact (layouts_exclusive _ _ _ _ _ Hin Hin Hm Hm).
Defined.

(** X15. When a required column is missing, the client of [POST /upload]
    receives status 400 with an empty JSON object: the rejection is an
    [Error], whose message is not serialised, so the names of the missing
    columns do not reach the client. The uploaded file is unlinked. *)
Theorem upload_missing_columns_response (path : string)
    (evs evs' : list Event) :
  streaming evs = true →
  missingColumns (observedHeaders evs) ≠ [] →
  postUpload (Some path) (evs ++ EvEnd :: evs') =
    (Some {| status := 400; body := [] |}, Some path).
Proof.
  intros Hs Hm. unfold postUpload.
  rewrite outcome_at_end by done.
  rewrite onEnd_pending by (by apply run_streaming_promise).
  rewrite run_streaming_columns by done.
  by destruct (missingColumns (observedHeaders evs)).
Qed.

Lemma upload_missing_columns_response_witness :
  streaming [EvHeaders ["Date"; "Symbol"]; EvData validRow] = true ∧
  missingColumns
    (observedHeaders [EvHeaders ["Date"; "Symbol"]; EvData validRow]) ≠ [] ∧
  postUpload (Some "uploads/f")
    ([EvHeaders ["Date"; "Symbol"]; EvData validRow] ++ EvEnd :: []) =
    (Some {| status := 400; body := [] |}, Some "uploads/f").
Proof.
  assert (missingColumns
            (observedHeaders [EvHeaders ["Date"; "Symbol"]; EvData validRow])
          ≠ []) as Hm by (by vm_compute).
  split; [by vm_compute|]. split; [exact Hm|].
  exact (upload_missing_columns_response "uploads/f"
           [EvHeaders ["Date"; "Symbol"]; EvData validRow] [] eq_refl Hm).
Defined.

(** X16. Whenever [POST /upload] answers for an uploaded file, the file is
    unlinked and the status is 201 or 400: 201 with the success report,
    whose [failedRecords] is 0 and whose [successfulRecords] equals
    [totalRecords], or 400 with the serialised rejection. *)
Theorem upload_response (path : string) (evs : list Event)
    (resp : Response) (unlinked : option string) :
  postUpload (Some path) evs = (Some resp, unlinked) →
  unlinked = Some path ∧
  ((status resp = 201 ∧
    ∃ t, (0 ≤ t)%Z ∧
         body resp =
           [ ("message", JString "File validated successfully");
             ("totalRecords", JNumber t); ("failedRecords", JNumber 0);
             ("successfulRecords", JNumber t) ]) ∨
   (status resp = 400 ∧
    ∃ o, validateCSVAndStoreCSV evs = Some o ∧
         (∀ message t f s, o ≠ Resolve message t f s) ∧
         body resp = toJSON o)).
Proof.
  unfold postUpload.
  destruct (validateCSVAndStoreCSV evs) as [o|] eqn:Ho; [|done].
  destruct o as [message t f s|e t f s rs|message|e].
  - intros [= <- <-]. split; [done|]. left. split; [done|].
    apply resolved_shape in Ho as (-> & -> & -> & Ht). by exists t.
  - intros [= <- <-]. split; [done|]. right. split; [done|]. by eexists.
  - intros [= <- <-]. split; [done|]. right. split; [done|]. by eexists.
  - intros [= <- <-]. split; [done|]. right. split; [done|]. by eexists.
Qed.

Lemma upload_response_witness :
  postUpload (Some "uploads/f")
    [EvHeaders REQUIRED_COLUMNS; EvData validRow; EvEnd] =
    (Some {| status := 201;
             body := [ ("message", JString "File validated successfully");
                       ("totalRecords", JNumber 1);
                       ("failedRecords", JNumber 0);
                       ("successfulRecords", JNumber 1) ] |},
     Some "uploads/f") ∧
  Some "uploads/f" = Some "uploads/f".
Proof.
  assert (postUpload (Some "uploads/f")
            [EvHeaders REQUIRED_COLUMNS; EvData validRow; EvEnd] =
          (Some {| status := 201;
                   body := [ ("message", JString "File validated successfully");
                             ("totalRecords", JNumber 1);
                             ("failedRecords", JNumber 0);
                             ("successfulRecords", JNumber 1) ] |},
           Some "uploads/f")) as Hp by (by vm_compute).
  split; [exact Hp|].
  exact (proj1 (upload_response _ _ _ _ Hp)).
Defined.

(** ** The extension of a file name *)

Section Extname.

Import Path.

Implicit Types (codes : list ascii) (st : Scan) (i : Z).

(** One turn of the loop on a code unit other than the separator. *)
Lemma scan_cons_plain c codes i st :
  c ≠ "/"%char →
  ∃ st1,
    scan (c :: codes) i st = scan codes (i - 1) st1 ∧
    startPart st1 = startPart st ∧
    end_ st1 = (if (end_ st =? -1)%Z then i + 1 else end_ st) ∧
    startDot st1 =
      (if Ascii.eqb c "." then
         if (startDot st =? -1)%Z then i else startDot st
       else startDot st) ∧
    preDotState st1 =
      (if (startDot st =? -1)%Z then preDotState st
       else if Ascii.eqb c "." then 1 else -1).
Proof.
  intros Hc. cbn [scan]. cbv zeta.
  destruct (Ascii.eqb_spec c "/") as [->|_]; [done|].
  destruct (end_ st =? -1)%Z eqn:He; cbn [startDot preDotState end_];
    destruct (Ascii.eqb c ".") eqn:Hd;
    destruct (startDot st =? -1)%Z eqn:Hs; cbn [negb];
    try (destruct (preDotState st =? 1)%Z eqn:Hp; cbn [negb]);
    eexists; (split; [reflexivity|]); cbn; rewrite ?He, ?Hs; try done.
  all: apply Z.eqb_eq in Hp; by rewrite Hp.
Qed.

(** Without a dot the loop never finds the start of an extension. *)
Lemma scan_no_dot codes i st :
  "."%char ∉ codes → startDot st = -1 → startDot (scan codes i st) = -1.
Proof.
  revert i st. induction codes as [|c codes IHc]; intros i st Hnd Hs; [done|].
  apply not_elem_of_cons in Hnd as [Hc Hnd].
  destruct (Ascii.eqb_spec c "/") as [->|Hsl].
  - cbn [scan]. change (Ascii.eqb "/" "/") with true. cbv iota.
    destruct (matchedSlash st); cbn [negb]; [by apply IHc|done].
  - destruct (scan_cons_plain c codes i st Hsl) as (st1 & -> & _ & _ & Hsd & _).
    apply IHc; [done|]. rewrite Hsd.
    by destruct (Ascii.eqb_spec c ".").
Qed.

(** The code units after the last dot: neither a dot nor a separator. *)
Lemma scan_plain codes rest i st :
  Forall (fun c => c ≠ "/"%char ∧ c ≠ "."%char) codes →
  startDot st = -1 →
  (Z.of_nat (List.length codes) ≤ i + 1)%Z →
  ∃ st1,
    scan (codes ++ rest) i st =
      scan rest (i - Z.of_nat (List.length codes)) st1 ∧
    startDot st1 = -1 ∧
    startPart st1 = startPart st ∧
    preDotState st1 = preDotState st ∧
    end_ st1 =
      (if bool_decide (codes = []) then end_ st
       else if (end_ st =? -1)%Z then i + 1 else end_ st).
Proof.
  revert i st. induction codes as [|c codes IHc]; intros i st Hall Hs Hlen.
  - exists st. cbn. by rewrite Z.sub_0_r.
  - apply Forall_cons in Hall as [[Hsl Hdot] Hall].
    cbn [List.length] in Hlen.
    destruct (scan_cons_plain c (codes ++ rest) i st Hsl)
      as (st1 & Hstep & Hsp & He & Hsd & Hpd).
    rewrite Hs in Hsd, Hpd. change (-1 =? -1)%Z with true in Hsd, Hpd.
    destruct (Ascii.eqb_spec c ".") as [->|_]; [done|].
    destruct (IHc (i - 1) st1 Hall Hsd ltac:(lia))
      as (st2 & Hscan & Hsd2 & Hsp2 & Hpd2 & He2).
    exists st2. cbn [app]. rewrite Hstep, Hscan.
    split; [f_equal; cbn [List.length]; lia|].
    split; [done|]. split; [congruence|]. split; [congruence|].
    rewrite He2, (bool_decide_eq_false_2 (c :: codes = [])) by done.
    assert (end_ st1 ≠ -1) as Hne.
    { rewrite He. destruct (end_ st =? -1)%Z eqn:Hq; [lia|].
      by apply Z.eqb_neq. }
    apply Z.eqb_neq in Hne. rewrite Hne.
    by destruct (bool_decide (codes = [])).
Qed.

(** The code units before the last dot, none of them a separator. *)
Lemma scan_base codes i st :
  "/"%char ∉ codes → startDot st ≠ -1 →
  (Z.of_nat (List.length codes) ≤ i + 1)%Z →
  startDot (scan codes i st) = startDot st ∧
  end_ (scan codes i st) = (if bool_decide (codes = []) then end_ st
                            else if (end_ st =? -1)%Z then i + 1 else end_ st) ∧
  startPart (scan codes i st) = startPart st ∧
  (codes = [] ∧ preDotState (scan codes i st) = preDotState st ∨
   preDotState (scan codes i st) = 1 ∨ preDotState (scan codes i st) = -1).
Proof.
  revert i st. induction codes as [|c codes IHc]; intros i st Hns Hs Hlen.
  - cbn. repeat split; by left.
  - apply not_elem_of_cons in Hns as [Hsl Hns]. cbn [List.length] in Hlen.
    destruct (scan_cons_plain c codes i st (not_eq_sym Hsl))
      as (st1 & -> & Hsp & He & Hsd & Hpd).
    apply Z.eqb_neq in Hs. rewrite Hs in Hsd, Hpd.
    assert (startDot st1 = startDot st) as Hsd'
      by (rewrite Hsd; by destruct (Ascii.eqb c ".")).
    apply Z.eqb_neq in Hs.
    destruct (IHc (i - 1) st1 Hns ltac:(congruence) ltac:(lia))
      as (Hsd2 & He2 & Hsp2 & Hpd2).
    rewrite (bool_decide_eq_false_2 (c :: codes = [])) by done.
    split; [congruence|]. split.
    { rewrite He2, He.
      destruct (bool_decide (codes = [])); [done|].
      destruct (end_ st =? -1)%Z eqn:Hq; [|by rewrite Hq].
      destruct (i + 1 =? -1)%Z eqn:Hq'; [|done].
      apply Z.eqb_eq in Hq'. lia. }
    split; [congruence|]. right.
    destruct Hpd2 as [[_ Hp]|Hp]; [|done].
    rewrite Hp, Hpd. destruct (Ascii.eqb c "."); auto.
Qed.

Lemma list_ascii_of_string_app s t :
  list_ascii_of_string (s +:+ t) =
  (list_ascii_of_string s ++ list_ascii_of_string t)%list.
Proof.
  induction s as [|c s IHs]; [done|].
  rewrite string_app_cons. cbn [list_ascii_of_string app]. by rewrite IHs.
Qed.

Lemma list_ascii_of_string_length s :
  List.length (list_ascii_of_string s) = String.length s.
Proof. induction s as [|c s IHs]; cbn; [done|by rewrite IHs]. Qed.

Lemma substring_all t : String.substring 0 (String.length t) t = t.
Proof. induction t as [|c t IHt]; cbn; [done|by rewrite IHt]. Qed.

Lemma substring_app s t :
  String.substring (String.length s) (String.length t) (s +:+ t) = t.
Proof.
  induction s as [|c s IHs]; [apply substring_all|].
  rewrite string_app_cons. cbn [String.length String.substring]. apply IHs.
Qed.

Lemma toLowerCase_eq_nil s : toLowerCase s = "" ↔ s = "".
Proof. by destruct s. Qed.

(** The extension of [base.ext]. *)
Lemma extname_base_ext base ext :
  base ≠ "" →
  "/"%char ∉ list_ascii_of_string base →
  Forall (fun c => c ≠ "/"%char ∧ c ≠ "."%char) (list_ascii_of_string ext) →
  extname (base +:+ "." +:+ ext) = "." +:+ ext ∨
  (ext = "" ∧ extname (base +:+ "." +:+ ext) = "").
Proof.
  intros Hbase Hns Hext. unfold extname.
  set (bl := list_ascii_of_string base).
  set (el := list_ascii_of_string ext).
  assert (String.length (base +:+ "." +:+ ext) =
          (String.length base + S (String.length ext))%nat) as Hlen
    by (by rewrite !string_app_length).
  assert (List.rev (list_ascii_of_string (base +:+ "." +:+ ext)) =
          (List.rev el ++ "."%char :: List.rev bl)%list) as ->.
  { rewrite !list_ascii_of_string_app, rev_app_distr. cbn [list_ascii_of_string].
    rewrite (rev_app_distr ["."%char]). cbn [List.rev app].
    by rewrite <- app_assoc. }
  rewrite Hlen.
  assert (List.length (List.rev el) = String.length ext) as Hel
    by (by rewrite length_rev; apply list_ascii_of_string_length).
  destruct (scan_plain (List.rev el) ("."%char :: List.rev bl)
              (Z.of_nat (String.length base + S (String.length ext)) - 1)
              start)
    as (st1 & -> & Hsd1 & Hsp1 & Hpd1 & He1).
  { by apply Forall_rev. }
  { done. }
  { rewrite Hel. lia. }
  rewrite Hel.
  destruct (scan_cons_plain "." (List.rev bl)
              (Z.of_nat (String.length base + S (String.length ext)) - 1 -
               Z.of_nat (String.length ext)) st1 ltac:(done))
    as (st2 & -> & Hsp2 & He2 & Hsd2 & Hpd2).
  rewrite Hsd1 in Hsd2, Hpd2. cbn in Hsd2, Hpd2.
  assert (List.rev bl ≠ []) as Hbl.
  { intros Hnil. apply (f_equal (@List.length _)) in Hnil.
    rewrite length_rev in Hnil. unfold bl in Hnil.
    rewrite list_ascii_of_string_length in Hnil. by destruct base. }
  match goal with |- context [scan (List.rev bl) ?i st2] =>
    destruct (scan_base (List.rev bl) i st2) as (Hsd3 & He3 & Hsp3 & Hpd3);
      [by rewrite list_elem_of_In, <- in_rev, <- list_elem_of_In|lia|
       rewrite length_rev; unfold bl;
       rewrite list_ascii_of_string_length; lia|
       set (st3 := scan (List.rev bl) i st2) in *]
  end.
  rewrite bool_decide_eq_false_2 in He3 by done.
  destruct Hpd3 as [[Hnil _]|Hpd3]; [done|].
  assert (startDot st3 = Z.of_nat (String.length base)) as Hsd by lia.
  assert (end_ st3 =
          Z.of_nat (String.length base + S (String.length ext))) as He.
  { rewrite He3, He2, He1. cbn [start end_].
    case_bool_decide as Hnil.
    - change (-1 =? -1)%Z with true. cbv iota.
      apply (f_equal (@List.length _)) in Hnil. rewrite Hel in Hnil.
      cbn in Hnil. rewrite Hnil.
      repeat match goal with
             | |- context [(?a =? -1)%Z] => destruct (Z.eqb_spec a (-1))
             end; lia.
    - change (-1 =? -1)%Z with true. cbv iota.
      assert (∀ x, (0 ≤ x)%Z → (x =? -1)%Z = false) as Hnz
        by (intros x Hx; apply Z.eqb_neq; lia).
      rewrite (Hnz (Z.of_nat (String.length base + S (String.length ext))
                    - 1 + 1)) by lia.
      rewrite Hnz by lia. lia. }
  assert (startPart st3 = 0) as Hsp by (rewrite Hsp3, Hsp2, Hsp1; done).
  rewrite Hsd, He, Hsp.
  assert (base ≠ "" → (0 < String.length base)%nat) as Hpos
    by (destruct base; [done|cbn; lia]).
  specialize (Hpos Hbase).
  replace (Z.of_nat (String.length base) =? -1)%Z with false
    by (symmetry; apply Z.eqb_neq; lia).
  replace (Z.of_nat (String.length base + S (String.length ext)) =? -1)%Z
    with false by (symmetry; apply Z.eqb_neq; lia).
  replace (preDotState st3 =? 0)%Z with false
    by (symmetry; apply Z.eqb_neq; lia).
  cbn [orb].
  destruct ((preDotState st3 =? 1)%Z &&
            (Z.of_nat (String.length base) =?
             Z.of_nat (String.length base + S (String.length ext)) - 1)%Z &&
            (Z.of_nat (String.length base) =? 0 + 1)%Z)%bool eqn:Hcond.
  - right. split; [|done].
    apply andb_true_iff in Hcond as [[_ Hq]%andb_true_iff _].
    apply Z.eqb_eq in Hq. destruct ext; [done|cbn in Hq; lia].
  - left.
    replace (Z.to_nat (Z.of_nat (String.length base)))
      with (String.length base) by lia.
    replace (Z.to_nat (Z.of_nat (String.length base + S (String.length ext)) -
                       Z.of_nat (String.length base)))
      with (String.length ("." +:+ ext))
      by (rewrite string_app_length; cbn [String.length]; lia).
    apply substring_app.
Qed.

Lemma lowerCode_dot : lowerCode "." = "."%char.
Proof. done. Qed.

(** The extension of a name without a dot, and of a dot file. *)
Lemma extname_none name :
  "."%char ∉ list_ascii_of_string name ∨
  (∃ ext, name = "." +:+ ext ∧
          Forall (fun c => c ≠ "/"%char ∧ c ≠ "."%char)
                 (list_ascii_of_string ext)) →
  extname name = "".
Proof.
  intros [Hnd|(ext & -> & Hext)]; unfold extname.
  - rewrite scan_no_dot; [done| |done].
    by rewrite list_elem_of_In, <- in_rev, <- list_elem_of_In.
  - change (list_ascii_of_string ("." +:+ ext))
      with ("."%char :: list_ascii_of_string ext).
    cbn [List.rev].
    destruct (scan_plain (List.rev (list_ascii_of_string ext)) ["."%char]
                (Z.of_nat (String.length ("." +:+ ext)) - 1) start)
      as (st1 & -> & Hsd1 & _ & Hpd1 & _).
    { by apply Forall_rev. }
    { done. }
    { rewrite length_rev, list_ascii_of_string_length.
      change (String.length ("." +:+ ext)) with (S (String.length ext)). lia. }
    match goal with |- context [scan ["."%char] ?i st1] =>
      destruct (scan_cons_plain "." [] i st1 ltac:(done))
        as (st2 & -> & _ & _ & _ & Hpd2)
    end.
    cbn [scan]. rewrite Hsd1 in Hpd2. cbn in Hpd2.
    rewrite Hpd2, Hpd1. cbn [start preDotState].
    change (0 =? 0)%Z with true. by rewrite !orb_true_r.
Qed.

End Extname.

(** X17. For a file name [base.ext], where [base] is not empty and holds no
    [/] and [ext] holds neither [/] nor a dot, the upload filter accepts the
    file exactly when [ext] is [csv] in any letter case. *)
Theorem upload_filter_accepts (base ext : string) :
  base ≠ "" →
  "/"%char ∉ list_ascii_of_string base →
  Forall (fun c => c ≠ "/"%char ∧ c ≠ "."%char) (list_ascii_of_string ext) →
  fileFilter (base +:+ "." +:+ ext) = AcceptFile ↔ toLowerCase ext = "csv".
Proof.
  intros Hbase Hns Hext. unfold fileFilter.
  destruct (extname_base_ext base ext Hbase Hns Hext) as [->|[-> ->]].
  - change (toLowerCase ("." +:+ ext)) with (String "." (toLowerCase ext)).
    destruct (String.eqb_spec (String "." (toLowerCase ext)) ".csv")
      as [Heq|Hne].
    + split; [|done]. intros _. by injection Heq.
    + split; [done|]. intros Heq. destruct Hne. by rewrite Heq.
  - done.
Qed.

Lemma upload_filter_accepts_witness :
  "Report 2024" ≠ "" ∧
  ("/"%char ∉ list_ascii_of_string "Report 2024") ∧
  Forall (fun c => c ≠ "/"%char ∧ c ≠ "."%char) (list_ascii_of_string "CsV") ∧
  toLowerCase "CsV" = "csv" ∧
  (fileFilter ("Report 2024" +:+ "." +:+ "CsV") = AcceptFile ↔
   toLowerCase "CsV" = "csv").
Proof.
  assert ("/"%char ∉ list_ascii_of_string "Report 2024") as Hns
    by (apply (bool_decide_unpack _); by vm_compute).
  assert (Forall (fun c => c ≠ "/"%char ∧ c ≠ "."%char)
                 (list_ascii_of_string "CsV")) as Hext
    by (apply (bool_decide_unpack _); by vm_compute).
  split; [done|]. split; [exact Hns|]. split; [exact Hext|].
  split; [by vm_compute|].
  exact (upload_filter_accepts "Report 2024" "CsV" ltac:(done) Hns Hext).
Defined.

(** X18. The upload filter refuses, with the error
    ["Only CSV files are allowed"], every name that holds no dot, and every
    dot file, a file named [.csv] included. *)
Theorem upload_filter_refuses (name : string) :
  "."%char ∉ list_ascii_of_string name ∨
  (∃ ext, name = "." +:+ ext ∧
          Forall (fun c => c ≠ "/"%char ∧ c ≠ "."%char)
                 (list_ascii_of_string ext)) →
  fileFilter name = RefuseFile "Only CSV files are allowed".
Proof.
  intros Hname. unfold fileFilter. by rewrite (extname_none name Hname).
Qed.

Lemma upload_filter_refuses_witness :
  (∃ ext, ".csv" = "." +:+ ext ∧
          Forall (fun c => c ≠ "/"%char ∧ c ≠ "."%char)
                 (list_ascii_of_string ext)) ∧
  fileFilter ".csv" = RefuseFile "Only CSV files are allowed".
Proof.
  assert (∃ ext, ".csv" = "." +:+ ext ∧
                 Forall (fun c => c ≠ "/"%char ∧ c ≠ "."%char)
                        (list_ascii_of_string ext)) as Hdot.
  { exists "csv". split; [done|].
    apply (bool_decide_unpack _). by vm_compute. }
  split; [exact Hdot|].
  exact (upload_filter_refuses ".csv" (or_intror Hdot)).
Defined.

(** X19. When the save called for row [i] fails, the handler records one
    reason, ["Error saving record in row {n}: {message}"], where [n] is the
    number of rows read by then, which is at least [i], and raises the
    failed count by one; the promise is left as it is. *)
Theorem save_failure_recorded (evs : list Event) (i : Z) (message : string) :
  is_Some (saves (run evs) !! i) →
  settled (run evs) !! i = None →
  errors (run (evs ++ [EvSaveSettled i (Stock.Failed message)])) =
    (errors (run evs) ++
     [saveError (Z.of_nat (List.length (dataRows evs))) message])%list ∧
  numberoffailedrecords
    (run (evs ++ [EvSaveSettled i (Stock.Failed message)])) =
    numberoffailedrecords (run evs) + 1 ∧
  (1 ≤ i ≤ Z.of_nat (List.length (dataRows evs)))%Z ∧
  validateCSVAndStoreCSV (evs ++ [EvSaveSettled i (Stock.Failed message)]) =
    validateCSVAndStoreCSV evs.
Proof.
  intros Hsome Hnone.
  unfold validateCSVAndStoreCSV. rewrite run_snoc. cbn [step].
  destruct (onSaveSettled_failed i message (run evs) Hsome Hnone)
    as (-> & -> & _ & ->).
  rewrite run_length. split; [done|]. split; [done|]. split; [|done].
  destruct (run_counted evs) as (_ & _ & Hkeys & _).
  destruct Hsome as [doc Hdoc]. apply elem_of_dom_2, Hkeys in Hdoc.
  by rewrite run_length in Hdoc.
Qed.

Lemma save_failure_recorded_witness :
  is_Some (saves (run threeRowsOneSaved) !! 1) ∧
  settled (run threeRowsOneSaved) !! 1 = None ∧
  errors (run (threeRowsOneSaved ++ [EvSaveSettled 1 (Stock.Failed "E")])) =
    [ "Error saving record in row 3: E" ] ∧
  errors (run (threeRowsOneSaved ++ [EvSaveSettled 1 (Stock.Failed "E")])) =
    (errors (run threeRowsOneSaved) ++
     [saveError (Z.of_nat (List.length (dataRows threeRowsOneSaved))) "E"])%list.
Proof.
  assert (is_Some (saves (run threeRowsOneSaved) !! 1)) as Hsome
    by (by vm_compute; eexists).
  assert (settled (run threeRowsOneSaved) !! 1 = None) as Hnone
    by (by vm_compute).
  split; [exact Hsome|]. split; [exact Hnone|]. split; [by vm_compute|].
  exact (proj1 (save_failure_recorded threeRowsOneSaved 1 "E" Hsome Hnone)).
Defined.
